(** * Detection service: session aggregation, reporting and stream reconnect

    A shallow embedding of the detection service of the cold-storage
    management system:

    - [config.py]   : the configuration constants,
    - [counter.py]  : [UnloadingSession] and [BagCounter.process_frame],
    - [main.py]     : [report_session],
    - [camera.py]   : the reconnect logic of [CameraStream._read_loop].

    Conventions of the embedding.

    - Python [int] is [Z]; [len] is [Z.of_nat (length _)].
    - Python [float] values (timestamps, confidences) are exact rationals
      [Q]: rounding errors of floating-point arithmetic are not modelled.
    - The set [unique_bag_ids] is a [gset Z].
    - Everything the code reads from its environment during one call
      (the clock, the video sink, the file system, the tracker, the HTTP
      endpoint) is an explicit input of the call; what it does to the
      environment is returned as a trace of calls, in program order: the
      calls on the video sink for [process_frame] (its log lines are left
      out), the request and the log lines for [report_session], the
      sleeps and the log lines for [_read_loop]. *)

From stdpp Require Import base decidable option list gmap strings.
From Stdlib Require Import Ascii ZArith QArith Qround Qabs Lia Lqa.
From Stdlib Require Import DecimalString.

Local Close Scope Q_scope.
Local Open Scope Z_scope.

(** ** config.py *)

Module Config.

(** Values read from the process environment at start-up. *)
Record t := {
  VEHICLE_ABSENCE_TIMEOUT : Z;   (* default 30 *)
  MIN_BAG_COUNT_TO_REPORT : Z;   (* default 1 *)
  BACKEND_URL : string;          (* default http://cold-backend:8080 *)
  BACKEND_API_KEY : string;      (* default empty *)
  VIDEO_DIR : string             (* counter.py, default /tmp/detection_videos *)
}.

Definition defaults : t := {|
  VEHICLE_ABSENCE_TIMEOUT := 30;
  MIN_BAG_COUNT_TO_REPORT := 1;
  BACKEND_URL := "http://cold-backend:8080";
  BACKEND_API_KEY := "";
  VIDEO_DIR := "/tmp/detection_videos"
|}.

Definition CLASS_POTATO_BAG : Z := 0.
Definition CLASS_BAG_CLUSTER : Z := 1.
Definition CLASS_VEHICLE : Z := 2.

End Config.

(** ** Python built-ins used by the service *)

Module Py.

(** [round(x)] of an exact value: nearest integer, ties to even. *)
Definition round_half_even (x : Q) : Z :=
  let f := Qfloor x in
  match ((x - inject_Z f) ?= (1 # 2))%Q with
  | Lt => f
  | Gt => f + 1
  | Eq => if Z.even f then f else f + 1
  end.

(** [round(x, ndigits)] for [ndigits >= 0]. *)
Definition round (x : Q) (ndigits : nat) : Q :=
  let p := 10 ^ Z.of_nat ndigits in
  Qmake (round_half_even (x * inject_Z p)) (Z.to_pos p).

(** [max(xs)] over a non-empty sequence, started at its first element:
    the running maximum is replaced only by a strictly greater item. *)
Definition max_from (x : Q) (xs : list Q) : Q :=
  fold_left (λ m c, if Qlt_le_dec m c then c else m) xs x.

(** [len(xs)] *)
Definition len {A} (xs : list A) : Z := Z.of_nat (length xs).

(** [os.path.join(a, b)] on POSIX. *)
Definition os_path_join (a b : string) : string :=
  match b with
  | String "/" _ => b
  | _ =>
      match a with
      | EmptyString => b
      | _ =>
          match String.get (String.length a - 1)%nat a with
          | Some "/"%char => a +:+ b
          | _ => a +:+ "/" +:+ b
          end
      end
  end.

End Py.

(** ** Python strings *)

Module PyStr.

(** Python [str] values as lists of characters; a character is a code
    point below 256. *)

(** [c.isspace()] *)
Definition isspace (c : ascii) : bool :=
  let n := nat_of_ascii c in
  ((9 <=? n)%nat && (n <=? 13)%nat) || ((28 <=? n)%nat && (n <=? 32)%nat)
  || (n =? 133)%nat || (n =? 160)%nat.

(** [s.lstrip()], [s.rstrip()], [s.strip()] *)
Fixpoint lstrip (s : list ascii) : list ascii :=
  match s with
  | c :: r => if isspace c then lstrip r else s
  | [] => []
  end.
Definition rstrip (s : list ascii) : list ascii := rev (lstrip (rev s)).
Definition strip (s : list ascii) : list ascii := rstrip (lstrip s).

(** [s.split(sep)] for a separator of one character. *)
Fixpoint split (sep : ascii) (s : list ascii) : list (list ascii) :=
  match s with
  | [] => [[]]
  | c :: r =>
      if Ascii.eqb c sep then [] :: split sep r
      else match split sep r with
           | h :: t => (c :: h) :: t
           | [] => [[c]]
           end
  end.

(** [sep.join(parts)] *)
Fixpoint join (sep : ascii) (parts : list (list ascii)) : list ascii :=
  match parts with
  | [] => []
  | [p] => p
  | p :: rest => p ++ sep :: join sep rest
  end.

(** [s.startswith(p)] *)
Fixpoint startswith (p s : list ascii) : bool :=
  match p, s with
  | [], _ => true
  | a :: p', b :: s' => Ascii.eqb a b && startswith p' s'
  | _ :: _, [] => false
  end.

(** [s.find(p)]: the index of the first occurrence of [p] in [s]; [None]
    where Python gives -1, and where [s.index(p)] raises. *)
Fixpoint find (p s : list ascii) : option nat :=
  if startswith p s then Some 0%nat
  else match s with
       | [] => None
       | _ :: r => S <$> find p r
       end.

(** [s.split(sep, 1)] when it has two parts; [None] when [sep] does not
    occur, where the result has one part only. *)
Fixpoint split_once (sep : ascii) (s : list ascii)
    : option (list ascii * list ascii) :=
  match s with
  | [] => None
  | c :: r =>
      if Ascii.eqb c sep then Some ([], r)
      else (λ ab : list ascii * list ascii, (c :: ab.1, ab.2))
             <$> split_once sep r
  end.

(** [str(n)] for a natural number. *)
Definition decimal (n : nat) : list ascii :=
  String.list_ascii_of_string (NilEmpty.string_of_uint (Nat.to_uint n)).

End PyStr.

(** ** counter.py *)

Module Counter.
Import Config.

(** One detection dict produced by the detector. *)
Record Detection := {
  class_id : Z;
  confidence : Q;
  bbox : list Q
}.

(** A raw BGR frame: its shape and its content. *)
Record Frame := {
  frame_height : Z;
  frame_width : Z;
  frame_pixels : list Z
}.

(** The handle [cv2.VideoWriter(...)] returns; [isOpened] tells whether
    the codec sink could be opened. *)
Record VideoWriter := { isOpened : bool }.

(** Calls made on the video sink, in program order. *)
Inductive SinkCall :=
| SinkOpen (path : string) (fps : Q) (width height : Z)
| SinkWrite (frame : Frame)
| SinkRelease.

(** What one call of [process_frame] reads from its environment. *)
Record Tick := {
  detections : list Detection;
  frame : option Frame;
  (** [now = time.time()] at the top of [process_frame] *)
  time_now : Q;
  (** [time.time()] as read by the default factory of [started_at] *)
  time_started_at : Q;
  (** [time.time()] as read by the default factory of [last_vehicle_seen] *)
  time_last_vehicle_seen : Q;
  (** [time.time()] as read by [duration_seconds] of a session not ended *)
  time_duration : Q;
  (** [datetime.now().strftime("%Y%m%d_%H%M%S")] *)
  strftime_now : string;
  (** whether the writer opened by [start_recording] [isOpened()] *)
  sink_opens : bool;
  (** [os.path.getsize(video_path)] if [os.path.exists(video_path)] *)
  fs_getsize : option Z
}.

(** The tracking capability ([sv.ByteTrack]): a state, its constructor
    with the parameters the service uses, and [update_with_detections],
    which returns the [tracker_id] array of the tracked detections
    ([None] when the array is absent). *)
Class ByteTrack := {
  tracker_state : Type;
  ByteTrack_new : tracker_state;
  update_with_detections :
    tracker_state → list Detection → tracker_state * option (list Z)
}.

Record UnloadingSession := {
  gate_id : string;
  started_at : Q;
  last_vehicle_seen : Q;
  unique_bag_ids : gset Z;
  bag_cluster_count : Z;
  peak_bags_in_frame : Z;
  total_frames : Z;
  vehicle_confidence_sum : Q;
  vehicle_detections : Z;
  ended : bool;
  video_writer : option VideoWriter;
  video_path : string;
  video_size_bytes : Z
}.

(** [UnloadingSession(gate_id=g)]: the two timestamps come from their
    default factories. *)
Definition UnloadingSession_new (g : string) (t_started t_last : Q)
  : UnloadingSession := {|
  gate_id := g;
  started_at := t_started;
  last_vehicle_seen := t_last;
  unique_bag_ids := ∅;
  bag_cluster_count := 0;
  peak_bags_in_frame := 0;
  total_frames := 0;
  vehicle_confidence_sum := 0%Q;
  vehicle_detections := 0;
  ended := false;
  video_writer := None;
  video_path := "";
  video_size_bytes := 0
|}.

(** Field assignments. *)
Definition set_last_vehicle_seen (v : Q) (s : UnloadingSession) :=
  {| gate_id := gate_id s; started_at := started_at s;
     last_vehicle_seen := v;
     unique_bag_ids := unique_bag_ids s;
     bag_cluster_count := bag_cluster_count s;
     peak_bags_in_frame := peak_bags_in_frame s;
     total_frames := total_frames s;
     vehicle_confidence_sum := vehicle_confidence_sum s;
     vehicle_detections := vehicle_detections s;
     ended := ended s; video_writer := video_writer s;
     video_path := video_path s;
     video_size_bytes := video_size_bytes s |}.

Definition set_unique_bag_ids (v : gset Z) (s : UnloadingSession) :=
  {| gate_id := gate_id s; started_at := started_at s;
     last_vehicle_seen := last_vehicle_seen s;
     unique_bag_ids := v;
     bag_cluster_count := bag_cluster_count s;
     peak_bags_in_frame := peak_bags_in_frame s;
     total_frames := total_frames s;
     vehicle_confidence_sum := vehicle_confidence_sum s;
     vehicle_detections := vehicle_detections s;
     ended := ended s; video_writer := video_writer s;
     video_path := video_path s;
     video_size_bytes := video_size_bytes s |}.

Definition set_bag_cluster_count (v : Z) (s : UnloadingSession) :=
  {| gate_id := gate_id s; started_at := started_at s;
     last_vehicle_seen := last_vehicle_seen s;
     unique_bag_ids := unique_bag_ids s;
     bag_cluster_count := v;
     peak_bags_in_frame := peak_bags_in_frame s;
     total_frames := total_frames s;
     vehicle_confidence_sum := vehicle_confidence_sum s;
     vehicle_detections := vehicle_detections s;
     ended := ended s; video_writer := video_writer s;
     video_path := video_path s;
     video_size_bytes := video_size_bytes s |}.

Definition set_peak_bags_in_frame (v : Z) (s : UnloadingSession) :=
  {| gate_id := gate_id s; started_at := started_at s;
     last_vehicle_seen := last_vehicle_seen s;
     unique_bag_ids := unique_bag_ids s;
     bag_cluster_count := bag_cluster_count s;
     peak_bags_in_frame := v;
     total_frames := total_frames s;
     vehicle_confidence_sum := vehicle_confidence_sum s;
     vehicle_detections := vehicle_detections s;
     ended := ended s; video_writer := video_writer s;
     video_path := video_path s;
     video_size_bytes := video_size_bytes s |}.

Definition set_total_frames (v : Z) (s : UnloadingSession) :=
  {| gate_id := gate_id s; started_at := started_at s;
     last_vehicle_seen := last_vehicle_seen s;
     unique_bag_ids := unique_bag_ids s;
     bag_cluster_count := bag_cluster_count s;
     peak_bags_in_frame := peak_bags_in_frame s;
     total_frames := v;
     vehicle_confidence_sum := vehicle_confidence_sum s;
     vehicle_detections := vehicle_detections s;
     ended := ended s; video_writer := video_writer s;
     video_path := video_path s;
     video_size_bytes := video_size_bytes s |}.

Definition set_vehicle_confidence_sum (v : Q) (s : UnloadingSession) :=
  {| gate_id := gate_id s; started_at := started_at s;
     last_vehicle_seen := last_vehicle_seen s;
     unique_bag_ids := unique_bag_ids s;
     bag_cluster_count := bag_cluster_count s;
     peak_bags_in_frame := peak_bags_in_frame s;
     total_frames := total_frames s;
     vehicle_confidence_sum := v;
     vehicle_detections := vehicle_detections s;
     ended := ended s; video_writer := video_writer s;
     video_path := video_path s;
     video_size_bytes := video_size_bytes s |}.

Definition set_vehicle_detections (v : Z) (s : UnloadingSession) :=
  {| gate_id := gate_id s; started_at := started_at s;
     last_vehicle_seen := last_vehicle_seen s;
     unique_bag_ids := unique_bag_ids s;
     bag_cluster_count := bag_cluster_count s;
     peak_bags_in_frame := peak_bags_in_frame s;
     total_frames := total_frames s;
     vehicle_confidence_sum := vehicle_confidence_sum s;
     vehicle_detections := v;
     ended := ended s; video_writer := video_writer s;
     video_path := video_path s;
     video_size_bytes := video_size_bytes s |}.

Definition set_ended (v : bool) (s : UnloadingSession) :=
  {| gate_id := gate_id s; started_at := started_at s;
     last_vehicle_seen := last_vehicle_seen s;
     unique_bag_ids := unique_bag_ids s;
     bag_cluster_count := bag_cluster_count s;
     peak_bags_in_frame := peak_bags_in_frame s;
     total_frames := total_frames s;
     vehicle_confidence_sum := vehicle_confidence_sum s;
     vehicle_detections := vehicle_detections s;
     ended := v; video_writer := video_writer s;
     video_path := video_path s;
     video_size_bytes := video_size_bytes s |}.

Definition set_video (w : option VideoWriter) (p : string) (sz : Z)
    (s : UnloadingSession) :=
  {| gate_id := gate_id s; started_at := started_at s;
     last_vehicle_seen := last_vehicle_seen s;
     unique_bag_ids := unique_bag_ids s;
     bag_cluster_count := bag_cluster_count s;
     peak_bags_in_frame := peak_bags_in_frame s;
     total_frames := total_frames s;
     vehicle_confidence_sum := vehicle_confidence_sum s;
     vehicle_detections := vehicle_detections s;
     ended := ended s; video_writer := w;
     video_path := p;
     video_size_bytes := sz |}.

(** *** Properties of [UnloadingSession] *)

Definition bag_count (s : UnloadingSession) : Z :=
  Z.of_nat (size (unique_bag_ids s)).

Definition estimated_total (s : UnloadingSession) : Z :=
  bag_count s + bag_cluster_count s.

Definition avg_vehicle_confidence (s : UnloadingSession) : Q :=
  if vehicle_detections s =? 0 then 0%Q
  else (vehicle_confidence_sum s / inject_Z (vehicle_detections s))%Q.

(** [clock] is what [time.time()] returns if the property reads it. *)
Definition duration_seconds (s : UnloadingSession) (clock : Q) : Q :=
  let end_ := if ended s then last_vehicle_seen s else clock in
  (end_ - started_at s)%Q.

(** *** Video recording *)

Section Recording.
Context (cfg : Config.t).

(** [start_recording(frame_width, frame_height, fps=10.0)] *)
Definition start_recording (s : UnloadingSession) (io : Tick)
    (frame_width frame_height : Z) : UnloadingSession * list SinkCall :=
  let path :=
    Py.os_path_join (VIDEO_DIR cfg)
      (gate_id s +:+ "_" +:+ strftime_now io +:+ ".mp4") in
  (set_video (Some {| isOpened := sink_opens io |}) path
     (video_size_bytes s) s,
   [SinkOpen path (10 # 1) frame_width frame_height]).

(** [write_frame(frame)] *)
Definition write_frame (s : UnloadingSession) (f : Frame) : list SinkCall :=
  match video_writer s with
  | Some w => if isOpened w then [SinkWrite f] else []
  | None => []
  end.

(** [stop_recording()] *)
Definition stop_recording (s : UnloadingSession) (io : Tick)
    : UnloadingSession * list SinkCall :=
  let '(s1, calls) :=
    match video_writer s with
    | Some _ =>
        (set_video None (video_path s) (video_size_bytes s) s,
         [SinkRelease])
    | None => (s, [])
    end in
  match video_path s1, fs_getsize io with
  | String _ _, Some sz =>
      (set_video (video_writer s1) (video_path s1) sz s1, calls)
  | _, _ => (s1, calls)
  end.

End Recording.

(** The dict built by [to_dict]. *)
Record SessionDict := {
  d_gate_id : string;
  d_started_at : Q;
  d_duration_seconds : Q;
  d_bag_count : Z;
  d_bag_cluster_count : Z;
  d_estimated_total : Z;
  d_peak_bags_in_frame : Z;
  d_total_frames : Z;
  d_avg_vehicle_confidence : Q;
  d_video_path : string;
  d_video_size_bytes : Z
}.

Definition to_dict (s : UnloadingSession) (clock : Q) : SessionDict := {|
  d_gate_id := gate_id s;
  d_started_at := started_at s;
  d_duration_seconds := Py.round (duration_seconds s clock) 1;
  d_bag_count := bag_count s;
  d_bag_cluster_count := bag_cluster_count s;
  d_estimated_total := estimated_total s;
  d_peak_bags_in_frame := peak_bags_in_frame s;
  d_total_frames := total_frames s;
  d_avg_vehicle_confidence := Py.round (avg_vehicle_confidence s) 3;
  d_video_path := video_path s;
  d_video_size_bytes := video_size_bytes s
|}.

(** *** BagCounter *)

Section BagCounter.
Context (cfg : Config.t) `{BT : ByteTrack}.

Record BagCounter := {
  self_gate_id : string;
  tracker : tracker_state;
  session : option UnloadingSession
}.

(** [BagCounter(gate_id)] *)
Definition BagCounter_new (g : string) : BagCounter :=
  {| self_gate_id := g; tracker := ByteTrack_new; session := None |}.

Definition bags_of (ds : list Detection) : list Detection :=
  filter (λ d, class_id d = CLASS_POTATO_BAG) ds.
Definition clusters_of (ds : list Detection) : list Detection :=
  filter (λ d, class_id d = CLASS_BAG_CLUSTER) ds.
Definition vehicles_of (ds : list Detection) : list Detection :=
  filter (λ d, class_id d = CLASS_VEHICLE) ds.

(** How the first [if]/[elif] of [process_frame] leaves: it falls
    through to the rest of the body, or it returns the completed
    session. *)
Inductive Flow :=
| FallThrough (self : BagCounter) (calls : list SinkCall)
| Return (self : BagCounter) (completed : SessionDict)
         (calls : list SinkCall).

(** [if vehicles: ... elif self.session is not None: ...] *)
Definition vehicle_phase (self : BagCounter) (io : Tick) : Flow :=
  let now := time_now io in
  match vehicles_of (detections io) with
  | v :: vs =>
      let '(s0, calls) :=
        match session self with
        | None =>
            let s := UnloadingSession_new (self_gate_id self)
                       (time_started_at io) (time_last_vehicle_seen io) in
            match frame io with
            | Some f =>
                start_recording cfg s io (frame_width f) (frame_height f)
            | None => (s, [])
            end
        | Some s => (s, [])
        end in
      let s1 := set_last_vehicle_seen now s0 in
      let s2 := set_vehicle_detections (vehicle_detections s1 + 1) s1 in
      let s3 :=
        set_vehicle_confidence_sum
          (vehicle_confidence_sum s2
           + Py.max_from (confidence v) (map confidence vs))%Q s2 in
      FallThrough
        {| self_gate_id := self_gate_id self; tracker := tracker self;
           session := Some s3 |} calls
  | [] =>
      match session self with
      | Some s =>
          let elapsed := (now - last_vehicle_seen s)%Q in
          if Qlt_le_dec (inject_Z (VEHICLE_ABSENCE_TIMEOUT cfg)) elapsed
          then
            let s1 := set_ended true s in
            let '(s2, calls) := stop_recording s1 io in
            let completed_session := to_dict s2 (time_duration io) in
            Return
              {| self_gate_id := self_gate_id self;
                 tracker := ByteTrack_new;
                 session := None |}
              completed_session calls
          else FallThrough self []
      | None => FallThrough self []
      end
  end.

(** [if self.session is not None and frame is not None: ...] *)
Definition record_phase (self : BagCounter) (io : Tick) : list SinkCall :=
  match session self, frame io with
  | Some s, Some f => write_frame s f
  | _, _ => []
  end.

(** [if self.session is not None and bags: ...] *)
Definition track_phase (self : BagCounter) (io : Tick) : BagCounter :=
  match session self, bags_of (detections io) with
  | Some s, (_ :: _) as bags =>
      let '(tr, tracker_id) := update_with_detections (tracker self) bags in
      let s1 :=
        match tracker_id with
        | Some tids =>
            set_unique_bag_ids (unique_bag_ids s ∪ list_to_set tids) s
        | None => s
        end in
      let s2 := set_total_frames (total_frames s1 + 1) s1 in
      let bags_this_frame := Py.len bags in
      let s3 :=
        if peak_bags_in_frame s2 <? bags_this_frame
        then set_peak_bags_in_frame bags_this_frame s2 else s2 in
      {| self_gate_id := self_gate_id self; tracker := tr;
         session := Some s3 |}
  | _, _ => self
  end.

(** [if self.session is not None and clusters: ...] *)
Definition cluster_phase (self : BagCounter) (io : Tick) : BagCounter :=
  match session self, clusters_of (detections io) with
  | Some s, (_ :: _) as clusters =>
      let cluster_count := Py.len clusters in
      if bag_cluster_count s <? cluster_count
      then {| self_gate_id := self_gate_id self; tracker := tracker self;
              session := Some (set_bag_cluster_count cluster_count s) |}
      else self
  | _, _ => self
  end.

(** [process_frame(detections, frame)]: the counter after the call,
    the value returned and the calls made on the video sink. *)
Definition process_frame (self : BagCounter) (io : Tick)
    : BagCounter * option SessionDict * list SinkCall :=
  match vehicle_phase self io with
  | Return self' completed_session calls =>
      (self', Some completed_session, calls)
  | FallThrough self1 calls1 =>
      let calls2 := record_phase self1 io in
      let self2 := track_phase self1 io in
      let self3 := cluster_phase self2 io in
      (self3, None, calls1 ++ calls2)
  end.

(** Feeding a sequence of ticks: the values returned, in order, and
    the counter at the end. *)
Fixpoint run (self : BagCounter) (ios : list Tick)
    : BagCounter * list (option SessionDict) :=
  match ios with
  | [] => (self, [])
  | io :: rest =>
      let '(self', out, _) := process_frame self io in
      let '(self'', outs) := run self' rest in
      (self'', out :: outs)
  end.

(** *** Observations on a call, used to state the properties *)

Definition state_after (self : BagCounter) (io : Tick) : BagCounter :=
  (process_frame self io).1.1.
Definition returned (self : BagCounter) (io : Tick) : option SessionDict :=
  (process_frame self io).1.2.
Definition sink_calls (self : BagCounter) (io : Tick) : list SinkCall :=
  (process_frame self io).2.

(** The anchor subject is present in the tick. *)
Definition vehicle_present (io : Tick) : Prop :=
  vehicles_of (detections io) ≠ [].

(** The anchor subject is absent and the time since [last_seen]
    strictly exceeds the absence timeout. *)
Definition absent_too_long (last_seen : Q) (io : Tick) : Prop :=
  vehicles_of (detections io) = [] ∧
  (inject_Z (VEHICLE_ABSENCE_TIMEOUT cfg) < time_now io - last_seen)%Q.

(** The tick finalizes the live visit of the counter. *)
Definition finalizes (self : BagCounter) (io : Tick) : Prop :=
  ∃ s, session self = Some s ∧ absent_too_long (last_vehicle_seen s) io.


(** The session as it is once the visit is marked ended and its
    recording stopped, from which the completed record is built. *)
Definition ended_session (s : UnloadingSession) (io : Tick)
    : UnloadingSession :=
  (stop_recording (set_ended true s) io).1.

(** The identities the tracker returns in the tracking step: those of
    [tracked.tracker_id] when [update_with_detections] is called, none
    otherwise. *)
Definition tracked_ids (self1 : BagCounter) (io : Tick) : list Z :=
  match session self1, bags_of (detections io) with
  | Some _, (_ :: _) as bags =>
      default [] (update_with_detections (tracker self1) bags).2
  | _, _ => []
  end.

(** The identities the tracker returns during the call. *)
Definition tracker_output (self : BagCounter) (io : Tick) : list Z :=
  match vehicle_phase self io with
  | Return _ _ _ => []
  | FallThrough self1 _ => tracked_ids self1 io
  end.

(** The sink calls that append a frame. *)
Definition frames_written (calls : list SinkCall) : list Frame :=
  omap (λ c, match c with SinkWrite f => Some f | _ => None end) calls.

(** Counters of a session are not negative. *)
Definition counts_ok (s : UnloadingSession) : Prop :=
  0 ≤ bag_cluster_count s ∧ 0 ≤ peak_bags_in_frame s ∧ 0 ≤ total_frames s.

(** The identities the tracker returns over a sequence of calls. *)
Fixpoint tracked_during (self : BagCounter) (ios : list Tick) : list Z :=
  match ios with
  | [] => []
  | io :: rest =>
      tracker_output self io ++ tracked_during (state_after self io) rest
  end.

(** Number of cluster-class detections of a tick. *)
Definition cluster_count (io : Tick) : Z :=
  Py.len (clusters_of (detections io)).
(** Number of bag-class detections of a tick. *)
Definition bags_this_frame (io : Tick) : Z :=
  Py.len (bags_of (detections io)).

(** Maximum and sum of a list of counts. *)
Definition max_count (ns : list Z) : Z := foldr Z.max 0 ns.
Definition sum_count (ns : list Z) : Z := foldr Z.add 0 ns.


(** The session whose counters a tick updates: the live one, or the
    fresh one of the visit the tick creates. *)
Definition session_on_entry (self : BagCounter) (io : Tick)
    : UnloadingSession :=
  match session self with
  | Some s => s
  | None =>
      UnloadingSession_new (self_gate_id self)
        (time_started_at io) (time_last_vehicle_seen io)
  end.

(** The sink has an opened writer for the visit during the tick. *)
Definition recording (self : BagCounter) (io : Tick) : bool :=
  match session self with
  | Some s =>
      match video_writer s with Some w => isOpened w | None => false end
  | None =>
      match frame io with Some _ => sink_opens io | None => false end
  end.

(** *** Observations on a sequence of calls *)

(** The calls made on the video sink over a sequence of ticks, in order. *)
Fixpoint run_sink_calls (self : BagCounter) (ios : list Tick)
    : list SinkCall :=
  match ios with
  | [] => []
  | io :: rest =>
      sink_calls self io ++ run_sink_calls (state_after self io) rest
  end.

(** The use a video sink allows: it is opened when closed, written and
    released when open. [Some b] tells that the calls use it that way and
    leave it open ([b = true]) or closed; [None] that they do not. *)
Fixpoint sink_discipline (opened : bool) (calls : list SinkCall)
    : option bool :=
  match calls with
  | [] => Some opened
  | SinkOpen _ _ _ _ :: rest =>
      if opened then None else sink_discipline true rest
  | SinkWrite _ :: rest =>
      if opened then sink_discipline true rest else None
  | SinkRelease :: rest =>
      if opened then sink_discipline false rest else None
  end.

(** The counter holds a video writer. *)
Definition has_writer (self : BagCounter) : bool :=
  match session self with
  | Some s => match video_writer s with Some _ => true | None => false end
  | None => false
  end.

(** The tick holds a vehicle-class detection, a bag-class detection. *)
Definition has_vehicle (io : Tick) : bool :=
  match vehicles_of (detections io) with [] => false | _ :: _ => true end.
Definition has_bags (io : Tick) : bool :=
  match bags_of (detections io) with [] => false | _ :: _ => true end.

(** How many of the ticks hold a vehicle, a bag. *)
Definition vehicle_ticks (ios : list Tick) : Z :=
  Py.len (List.filter has_vehicle ios).
Definition bag_ticks (ios : list Tick) : Z :=
  Py.len (List.filter has_bags ios).

(** The largest confidence among the vehicle detections of a tick. *)
Definition best_confidence (io : Tick) : Q :=
  match vehicles_of (detections io) with
  | v :: vs => Py.max_from (confidence v) (map confidence vs)
  | [] => 0%Q
  end.

(** The sum, tick after tick, of the best vehicle confidences. *)
Definition confidence_total (ios : list Tick) : Q :=
  fold_left (λ acc io, if has_vehicle io then (acc + best_confidence io)%Q
                       else acc) ios 0%Q.

(** The time of the last tick that holds a vehicle, [t] if none does. *)
Definition last_seen (t : Q) (ios : list Tick) : Q :=
  fold_left (λ t io, if has_vehicle io then time_now io else t) ios t.

(** The path [start_recording] gives to the video of a visit. *)
Definition video_path_of (g : string) (io : Tick) : string :=
  Py.os_path_join (VIDEO_DIR cfg) (g +:+ "_" +:+ strftime_now io +:+ ".mp4").

(** The frames supplied with the ticks. *)
Definition frames_of (ios : list Tick) : list Frame := omap frame ios.


End BagCounter.

End Counter.

(** ** main.py *)

Module Main.
Import Config.
Import Counter.

(** What [requests.post] gives back: a response, or it raises
    [requests.RequestException]. *)
Record Response := { status_code : Z; text : string }.

Inductive PostResult :=
| Responded (resp : Response)
| RequestException (e : string).

Record Request := {
  req_url : string;
  req_json : SessionDict;
  req_headers : gmap string string;
  req_timeout : Z
}.

(** What [report_session] does to the outside, in program order. *)
Inductive Effect :=
| LogSkipped (gate : string) (bags : Z)
    (* info: below threshold, skipping report *)
| Post (req : Request)
    (* requests.post(url, json=session, headers=headers, timeout=10) *)
| LogReported (gate : string) (bags : Z)
    (* info: Reported session to backend *)
| LogRejected (status : Z) (body : string)
    (* error: Backend rejected session report *)
| LogFailed (e : string).
    (* error: Failed to report session to backend *)

Section Report.
Context (cfg : Config.t).

(** [report_session(session)]; [post] is the endpoint as the call
    finds it. *)
Definition report_session (session : SessionDict)
    (post : Request → PostResult) : list Effect :=
  if d_estimated_total session <? MIN_BAG_COUNT_TO_REPORT cfg then
    [LogSkipped (d_gate_id session) (d_estimated_total session)]
  else
    let url := BACKEND_URL cfg +:+ "/api/detections" in
    let headers : gmap string string :=
      {[ "Content-Type" := "application/json" ]} in
    let headers :=
      match BACKEND_API_KEY cfg with
      | EmptyString => headers
      | key => <[ "Authorization" := "Bearer " +:+ key ]> headers
      end in
    let req := {| req_url := url; req_json := session;
                  req_headers := headers; req_timeout := 10 |} in
    Post req ::
    match post req with
    | Responded resp =>
        if bool_decide (status_code resp ∈ [200; 201]) then
          [LogReported (d_gate_id session) (d_estimated_total session)]
        else
          [LogRejected (status_code resp)
             (String.substring 0 200 (text resp))]
    | RequestException e => [LogFailed e]
    end.

End Report.

(** How an attempt to report is classified by the log line it leaves. *)
Definition is_post (e : Effect) : bool :=
  match e with Post _ => true | _ => false end.
Definition posts (tr : list Effect) : nat :=
  length (List.filter is_post tr).
Definition logged_success (tr : list Effect) : Prop :=
  ∃ g n, LogReported g n ∈ tr.
Definition logged_failure (tr : list Effect) : Prop :=
  (∃ c b, LogRejected c b ∈ tr) ∨ (∃ e, LogFailed e ∈ tr).

(** *** The loop of [main] *)

Section Loop.
Context (cfg : Config.t) `{BT : ByteTrack}.

(** The body of the loop over [streams] in [main], for one stream.
    [frame io] is what [stream.get_frame()] returns and [detections io]
    what [detector.detect(frame)] returns for it; the other fields of
    [io] are what [process_frame] reads from its environment; [post] is
    the endpoint as [report_session] finds it. *)
Definition serve_stream (counter : BagCounter) (io : Tick)
    (post : Request → PostResult)
    : BagCounter * list SinkCall * list Effect :=
  match frame io with
  | None => (counter, [], [])
  | Some _ =>
      let '(counter', completed, calls) := process_frame cfg counter io in
      (counter', calls,
       match completed with
       | Some session => report_session cfg session post
       | None => []
       end)
  end.

(** The passes of the loop for one stream, in order. *)
Fixpoint serve (counter : BagCounter) (ios : list Tick)
    (post : Request → PostResult) : BagCounter * list Effect :=
  match ios with
  | [] => (counter, [])
  | io :: rest =>
      let '(counter', _, effects) := serve_stream counter io post in
      let '(counter'', effects') := serve counter' rest post in
      (counter'', effects ++ effects')
  end.

(** The pass got a frame from the stream. *)
Definition has_frame (io : Tick) : bool :=
  match frame io with Some _ => true | None => false end.

(** What [main] does with the values [process_frame] returns. *)
Definition reports (outs : list (option SessionDict))
    (post : Request → PostResult) : list Effect :=
  mjoin ((λ o : option SessionDict,
            match o with
            | Some session => report_session cfg session post
            | None => []
            end) <$> outs).

(** The records sent to the endpoint. *)
Definition posted (tr : list Effect) : list SessionDict :=
  omap (λ e, match e with Post req => Some (req_json req) | _ => None end) tr.

End Loop.

End Main.

(** ** camera.py *)

Module Camera.
Import Counter.

Record CameraStream := {
  gate_id : string;
  url : string;
  target_fps : Z;
  _frame : option Frame;
  _running : bool;
  _reconnect_delay : Z;
  _consecutive_failures : Z
}.

(** [CameraStream(gate_id, url, target_fps)] *)
Definition CameraStream_new (g u : string) (fps : Z) : CameraStream := {|
  gate_id := g; url := u; target_fps := fps;
  _frame := None;
  _running := false;
  _reconnect_delay := 5;
  _consecutive_failures := 0
|}.

Definition set_running (b : bool) (cs : CameraStream) : CameraStream :=
  {| gate_id := gate_id cs; url := url cs; target_fps := target_fps cs;
     _frame := _frame cs; _running := b;
     _reconnect_delay := _reconnect_delay cs;
     _consecutive_failures := _consecutive_failures cs |}.

Definition set_failures (n : Z) (cs : CameraStream) : CameraStream :=
  {| gate_id := gate_id cs; url := url cs; target_fps := target_fps cs;
     _frame := _frame cs; _running := _running cs;
     _reconnect_delay := _reconnect_delay cs;
     _consecutive_failures := n |}.

Definition set_frame (f : option Frame) (cs : CameraStream) : CameraStream :=
  {| gate_id := gate_id cs; url := url cs; target_fps := target_fps cs;
     _frame := f; _running := _running cs;
     _reconnect_delay := _reconnect_delay cs;
     _consecutive_failures := _consecutive_failures cs |}.

(** [start()], as far as the state of the stream goes. *)
Definition start (cs : CameraStream) : CameraStream := set_running true cs.

(** [get_frame()] *)
Definition get_frame (cs : CameraStream) : option Frame := _frame cs.

(** What happens at one pass of the inner read cycle that stays in it. *)
Inductive ReadEvent :=
| Throttled                (* too early: cap.grab(), sleep 1 ms *)
| Decoded (f : Frame).     (* cap.read() succeeded *)

(** How the inner read cycle is left. *)
Inductive CycleEnd :=
| ReadFailed               (* cap.read() failed: break *)
| StopSeen.                (* stop() was called: _running is False *)

(** What the environment does at one pass of the outer loop. *)
Inductive Attempt :=
| OpenFails                (* cap.isOpened() is False *)
| OpenOk (reads : list ReadEvent) (how : CycleEnd)
                           (* connected, then the read cycle *)
| Stop.                    (* stop() is called during the pass *)

(** The sleeps and log lines of the loop, in program order. *)
Inductive Effect :=
| Sleep (seconds : Q)
| WarnOpenFailed (attempt delay : Z)
| InfoConnected
| WarnLost
| Release.

(** The inner [while self._running:] cycle. *)
Fixpoint read_cycle (cs : CameraStream) (reads : list ReadEvent)
    (how : CycleEnd) : CameraStream * list Effect :=
  match reads with
  | [] =>
      match how with
      | ReadFailed => (cs, [WarnLost])
      | StopSeen => (set_running false cs, [])
      end
  | Throttled :: rest =>
      let '(cs', tr) := read_cycle cs rest how in
      (cs', Sleep (1 # 1000) :: tr)
  | Decoded f :: rest => read_cycle (set_frame (Some f) cs) rest how
  end.

(** One pass of the outer [while self._running:] loop of [_read_loop]. *)
Definition read_loop_pass (cs : CameraStream) (a : Attempt)
    : CameraStream * list Effect :=
  match a with
  | Stop => (set_running false cs, [])
  | OpenFails =>
      let cs1 := set_failures (_consecutive_failures cs + 1) cs in
      let delay :=
        Z.min (_reconnect_delay cs1 * _consecutive_failures cs1) 60 in
      (cs1,
       [WarnOpenFailed (_consecutive_failures cs1) delay;
        Sleep (inject_Z delay)])
  | OpenOk reads how =>
      let cs1 := set_failures 0 cs in
      let '(cs2, tr) := read_cycle cs1 reads how in
      (cs2,
       InfoConnected :: tr ++ Release ::
       (if _running cs2 then [Sleep (inject_Z (_reconnect_delay cs2))]
        else []))
  end.

(** [_read_loop()] against a script of what the environment does at
    each pass. The second component tells whether the loop has left
    ([_running] found false at the head of a pass); the script running
    out leaves the loop where it stands. *)
Fixpoint _read_loop (cs : CameraStream) (script : list Attempt)
    : CameraStream * bool * list Effect :=
  if _running cs then
    match script with
    | [] => (cs, false, [])
    | a :: rest =>
        let '(cs1, tr1) := read_loop_pass cs a in
        let '(cs2, gone, tr2) := _read_loop cs1 rest in
        (cs2, gone, tr1 ++ tr2)
    end
  else (cs, true, []).

(** The durations slept, in order. *)
Definition sleeps (tr : list Effect) : list Q :=
  omap (λ e, match e with Sleep d => Some d | _ => None end) tr.

(** The delay of the [k]-th consecutive open failure, as the
    specification of the frame source words it. *)
Definition spec_backoff (base_delay max_delay k : Z) : Z :=
  Z.min (base_delay * Z.min k 12) max_delay.

(** *** Observations on a script *)




(** The waits announced after open failures: attempt number and delay. *)
Definition backoffs (tr : list Effect) : list (Z * Z) :=
  omap (λ e, match e with WarnOpenFailed n d => Some (n, d) | _ => None end)
    tr.




End Camera.

(** ** main.py: the camera configuration *)

Module Urls.
Import PyStr.

Definition comma : ascii := ",".
Definition colon : ascii := ":".
Definition slashes : list ascii := ["/"; "/"]%char.

(** The test of [parse_camera_urls]: a conditional expression, whose
    condition is ["//" in entry]. *)
Definition takes_prefix (entry : list ascii) : bool :=
  match find slashes entry with
  | Some j =>
      match find [colon] entry with
      | Some i => (i <? j)%nat
      | None => false
      end
  | None => true
  end.

(** The loop of [parse_camera_urls]; [None] when unpacking the result of
    [entry.split(":", 1)] raises [ValueError]. *)
Fixpoint parse_entries (entries : list (list ascii))
    (cameras : list (list ascii * list ascii))
    : option (list (list ascii * list ascii)) :=
  match entries with
  | [] => Some cameras
  | entry :: rest =>
      let entry := strip entry in
      match entry with
      | [] => parse_entries rest cameras
      | _ :: _ =>
          if takes_prefix entry then
            match split_once colon entry with
            | Some (gate_id, url) =>
                parse_entries rest (cameras ++ [(strip gate_id, strip url)])
            | None => None
            end
          else
            parse_entries rest
              (cameras
               ++ [(String.list_ascii_of_string "gate"
                    ++ decimal (length cameras + 1), strip entry)])
      end
  end.

(** [parse_camera_urls(raw)] *)
Definition parse_camera_urls (raw : list ascii)
    : option (list (list ascii * list ascii)) :=
  parse_entries (split comma raw) [].

(** The documented format: [gate_id:url] entries joined by commas. *)
Definition format_entry (cam : list ascii * list ascii) : list ascii :=
  cam.1 ++ colon :: cam.2.
Definition format_camera_urls (cams : list (list ascii * list ascii))
    : list ascii :=
  join comma (format_entry <$> cams).

(** A camera the format can carry: no comma in it, no colon and no ["//"]
    in its gate id, no blank at the ends of its gate id and of its url. *)
Definition well_formed (cam : list ascii * list ascii) : Prop :=
  ¬ In comma cam.1 ∧ ¬ In comma cam.2 ∧ ¬ In colon cam.1 ∧
  find slashes cam.1 = None ∧ strip cam.1 = cam.1 ∧ strip cam.2 = cam.2.

(** The entry is one at which [parse_camera_urls] raises. *)
Definition raises (entry : list ascii) : Prop :=
  strip entry ≠ [] ∧ find slashes (strip entry) = None ∧
  find [colon] (strip entry) = None.

(** The entry is blank: [parse_camera_urls] skips it. *)
Definition blank (entry : list ascii) : bool :=
  match strip entry with [] => true | _ :: _ => false end.

(** An entry without gate id as [parse_camera_urls] knows them: no comma,
    no blank at its ends, and a ["//"] that no colon comes before. *)
Definition unprefixed (entry : list ascii) : Prop :=
  ¬ In comma entry ∧ strip entry = entry ∧ takes_prefix entry = false.

(** The cameras of entries without gate id: they are named by their
    rank, counted from [n + 1]. *)
Fixpoint auto_named (n : nat) (entries : list (list ascii))
    : list (list ascii * list ascii) :=
  match entries with
  | [] => []
  | e :: rest =>
      (String.list_ascii_of_string "gate" ++ decimal (n + 1), e)
      :: auto_named (S n) rest
  end.

End Urls.

(** ** detector.py *)

Module Detector.
Import Counter.

(** Floats are taken as exact rationals, as everywhere in this
    development. *)

(** [int(x)] of a float: truncation towards zero. *)
Definition int (x : Q) : Z :=
  if Qle_bool 0 x then Qfloor x else Qceiling x.

(** An int as an f-string shows it. *)
Definition format_int (n : Z) : string :=
  NilZero.string_of_int (Z.to_int n).

(** One box of [result.boxes]: [cls[0]], [conf[0]] and
    [xyxy[0].tolist()]. *)
Record Box := { cls : Q; conf : Q; xyxy : Q * Q * Q * Q }.

(** One element of what [model.predict] returns. *)
Record Result := { boxes : option (list Box) }.

(** The dict [detect] appends for a box: the keys the counter reads and
    the two it does not. *)
Record DetectionDict := {
  detection : Detection;
  class_name : string;
  bbox_norm : list Q
}.

(** [x / d] for a float [x] and an int [d]: raises [ZeroDivisionError]
    when [d] is zero. *)
Definition truediv (x : Q) (d : Z) : option Q :=
  if d =? 0 then None else Some (x / inject_Z d)%Q.

Section Detect.
(** [self.model.names] *)
Context (names : gmap Z string).

(** The body of the loop over [result.boxes]; [None] when it raises. *)
Definition detect_box (w h : Z) (box : Box) : option DetectionDict :=
  let cls_id := int (cls box) in
  let conf := conf box in
  let '(x1, y1, x2, y2) := xyxy box in
  cx ← truediv ((x1 + x2) / 2)%Q w;
  cy ← truediv ((y1 + y2) / 2)%Q h;
  bw ← truediv (x2 - x1)%Q w;
  bh ← truediv (y2 - y1)%Q h;
  Some {|
    detection := {|
      class_id := cls_id;
      confidence := Py.round conf 3;
      bbox := (λ v, Py.round v 1) <$> [x1; y1; x2; y2]
    |};
    class_name := default ("class_" +:+ format_int cls_id) (names !! cls_id);
    bbox_norm := (λ v, Py.round v 4) <$> [cx; cy; bw; bh]
  |}.

(** [detect(frame)]; [results] is what [self.model.predict] returns for
    the frame. *)
Definition detect (results : list Result) (frame : Frame)
    : option (list DetectionDict) :=
  match results with
  | [] => Some []
  | result :: _ =>
      match boxes result with
      | None => Some []
      | Some bs =>
          let h := frame_height frame in
          let w := frame_width frame in
          mapM (detect_box w h) bs
      end
  end.

End Detect.

(** The boxes [detect] goes through. *)
Definition boxes_of (results : list Result) : list Box :=
  match results with
  | [] => []
  | result :: _ => default [] (boxes result)
  end.



End Detector.

(** ** Concrete data for the examples *)

Module Examples.
Import Config.
Import Counter.

(** A tracker for the examples: the identity of a box is the integer
    part of its first coordinate; the state counts the updates. *)
Definition box_tracker : ByteTrack := {|
  tracker_state := nat;
  ByteTrack_new := 0%nat;
  update_with_detections t bags :=
    (S t, Some (map (λ d, Qfloor (hd 0%Q (bbox d))) bags))
|}.

Definition bag (id : Z) : Detection :=
  {| class_id := CLASS_POTATO_BAG; confidence := 9 # 10;
     bbox := [inject_Z id; 0%Q; inject_Z id + 1; 1%Q]%Q |}.
Definition cluster : Detection :=
  {| class_id := CLASS_BAG_CLUSTER; confidence := 7 # 10;
     bbox := [0; 0; 50; 50]%Q |}.
Definition vehicle (conf : Q) : Detection :=
  {| class_id := CLASS_VEHICLE; confidence := conf;
     bbox := [0; 0; 300; 200]%Q |}.

Definition image : Frame :=
  {| frame_height := 480; frame_width := 640; frame_pixels := [] |}.

(** A tick at time [now]; the clock reads of the call all give [now],
    the sink opens and the file of the recording has 1000 bytes. *)
Definition tick (now : Q) (dets : list Detection) (f : option Frame) : Tick :=
  {| detections := dets; frame := f;
     time_now := now; time_started_at := now;
     time_last_vehicle_seen := now; time_duration := now;
     strftime_now := "20250101_000000";
     sink_opens := true; fs_getsize := Some 1000 |}.

Definition counter0 : @BagCounter box_tracker :=
  BagCounter_new (BT := box_tracker) "gate1".

(** Scenario 1 of the specification: the anchor subject is on for three
    ticks with bags 1,2 / 2,3 / 3,4, then absent. *)
Definition scenario1 : list Tick :=
  [ tick 0 [vehicle (9 # 10); bag 1; bag 2] (Some image);
    tick 1 [vehicle (8 # 10); bag 2; bag 3] (Some image);
    tick 2 [vehicle (95 # 100); bag 3; bag 4] (Some image);
    tick 20 [] (Some image);
    tick 33 [bag 7; cluster] (Some image);
    tick 34 [] (Some image) ].

(** Scenario 2: cluster counts 2, 5, 3, 1 over a live visit. *)
Definition scenario2 : list Tick :=
  [ tick 0 (vehicle (9 # 10) :: replicate 2 cluster) None;
    tick 1 (replicate 5 cluster) None;
    tick 2 (vehicle (9 # 10) :: replicate 3 cluster) None;
    tick 3 (replicate 1 cluster) None ].


(** A counter with a live visit: the anchor subject was last seen at
    time 0, bags 1 and 2 are counted, the video is being recorded. *)
Definition session1 : UnloadingSession :=
  {| gate_id := "gate1"; started_at := 0; last_vehicle_seen := 0;
     unique_bag_ids := {[ 1; 2 ]};
     bag_cluster_count := 0; peak_bags_in_frame := 2; total_frames := 1;
     vehicle_confidence_sum := 9 # 10; vehicle_detections := 1;
     ended := false;
     video_writer := Some {| isOpened := true |};
     video_path := "/tmp/detection_videos/gate1_20250101_000000.mp4";
     video_size_bytes := 0 |}.

Definition counter1 : @BagCounter box_tracker :=
  @Build_BagCounter box_tracker "gate1" 1%nat (Some session1).



(** A live visit and a tick with the anchor subject only. *)
Definition vehicle_only : Tick := tick 1 [vehicle (9 # 10)] (Some image).

(** A visit seen for a quarter of a second. *)
Definition short_visit : list Tick :=
  [ tick 0 [vehicle (9 # 10); bag 1] None;
    tick (1 # 4) [vehicle (9 # 10)] None;
    tick 31 [] None ].

Definition record3 : SessionDict :=
  {| d_gate_id := "gate1"; d_started_at := 0; d_duration_seconds := 12;
     d_bag_count := 2; d_bag_cluster_count := 1; d_estimated_total := 3;
     d_peak_bags_in_frame := 2; d_total_frames := 40;
     d_avg_vehicle_confidence := 9 # 10;
     d_video_path := ""; d_video_size_bytes := 0 |}.

Definition record0 : SessionDict :=
  {| d_gate_id := "gate1"; d_started_at := 0; d_duration_seconds := 1;
     d_bag_count := 0; d_bag_cluster_count := 0; d_estimated_total := 0;
     d_peak_bags_in_frame := 0; d_total_frames := 0;
     d_avg_vehicle_confidence := 9 # 10;
     d_video_path := ""; d_video_size_bytes := 0 |}.

(** Endpoints answering with a fixed status, and one that is down. *)
Definition answers (status : Z) : Main.Request → Main.PostResult :=
  λ _, Main.Responded {| Main.status_code := status; Main.text := "" |}.
Definition down : Main.Request → Main.PostResult :=
  λ _, Main.RequestException "connection refused".

Definition camera0 : Camera.CameraStream :=
  Camera.start (Camera.CameraStream_new "gate1" "rtsp://10.0.0.1/s" 10).

(** Two failed opens, a connection that decodes a frame and is lost, a
    failed open, then [stop()]; what follows is never reached. *)
Definition script0 : list Camera.Attempt :=
  [ Camera.OpenFails; Camera.OpenFails;
    Camera.OpenOk [Camera.Throttled; Camera.Decoded image; Camera.Throttled]
      Camera.ReadFailed;
    Camera.OpenFails; Camera.Stop; Camera.OpenFails ].

(** Camera configurations. *)
Definition str (x : string) : list ascii := String.list_ascii_of_string x.

Definition two_cameras : list (list ascii * list ascii) :=
  [ (str "gate1", str "rtsp://192.168.1.10:554/stream1");
    (str "gate2", str "rtsp://192.168.1.11:554/stream1") ].

(** A url given without gate id. *)
Definition bare_url : list ascii := str "rtsp://192.168.1.10:554/stream1".

(** Entries that start with the two slashes. *)
Definition slash_entries : list (list ascii) :=
  [ str "//192.168.1.10/stream1"; str "//192.168.1.11/stream1" ].

(** The passes of the loop over scenario 1 up to the end of the visit,
    with two passes in which the stream had no frame yet. *)
Definition passes1 : list Tick :=
  tick 0 [] None
  :: take 2 scenario1 ++ [tick 10 [] None] ++ drop 2 (take 5 scenario1).

(** [model.names] of the service, a vehicle box, what the model returns
    for a frame that shows it, and a frame without width. *)
Definition names0 : gmap Z string :=
  {[ 0 := "potato_bag"; 1 := "bag_cluster"; 2 := "vehicle" ]}.
Definition box0 : Detector.Box :=
  {| Detector.cls := 2; Detector.conf := 87654 # 100000;
     Detector.xyxy := (1004 # 100, 20, 31026 # 100, 2205 # 10)%Q |}.
Definition results0 : list Detector.Result :=
  [ {| Detector.boxes := Some [box0] |} ].
Definition no_image : Frame :=
  {| frame_height := 480; frame_width := 0; frame_pixels := [] |}.

End Examples.

(** ** Proof steps shared by the developments *)

Module Tactics.

(** Case analysis on every test of the code in the goal. *)
Ltac split_tests :=
  repeat match goal with
    | |- context [match ?x with _ => _ end] =>
        match type of x with
        | sumbool _ _ => destruct x
        | _ => destruct x eqn:?
        end
    | |- context [if ?b then _ else _] => destruct b eqn:?
    end.

(** Membership in an explicit list, by cases on its elements. *)
Ltac no_such_line H :=
  repeat (let x := fresh in
          inversion H as [| ? ? ? x]; subst; clear H; try discriminate;
          try rename x into H);
  try (inversion H; fail).

End Tactics.

(** * Rounding *)

Module PyTheory.



End PyTheory.

(** * Properties of the visit aggregator *)

Module CounterTheory.
Import Config.
Import Counter.
Import Tactics.

Section Aggregator.
Context (cfg : Config.t) `{BT : ByteTrack}.


(** *** The phases after the first one keep the visit and its clock *)

Lemma track_phase_session self io :
  session (track_phase self io) = None ↔ session self = None.
Proof.
  unfold track_phase. split_tests; simpl; split; congruence.
Qed.

Lemma cluster_phase_session self io :
  session (cluster_phase self io) = None ↔ session self = None.
Proof.
  unfold cluster_phase. split_tests; simpl; split; congruence.
Qed.

Lemma track_phase_clock self io s :
  session self = Some s →
  ∃ s', session (track_phase self io) = Some s' ∧
        last_vehicle_seen s' = last_vehicle_seen s ∧
        started_at s' = started_at s ∧
        gate_id s' = gate_id s ∧
        bag_cluster_count s' = bag_cluster_count s ∧
        video_writer s' = video_writer s.
Proof.
  intros Hs. unfold track_phase. rewrite Hs.
  split_tests; simpl; eauto 10.
Qed.

Lemma cluster_phase_clock self io s :
  session self = Some s →
  ∃ s', session (cluster_phase self io) = Some s' ∧
        last_vehicle_seen s' = last_vehicle_seen s ∧
        started_at s' = started_at s ∧
        gate_id s' = gate_id s ∧
        unique_bag_ids s' = unique_bag_ids s ∧
        peak_bags_in_frame s' = peak_bags_in_frame s ∧
        total_frames s' = total_frames s ∧
        video_writer s' = video_writer s.
Proof.
  intros Hs. unfold cluster_phase. rewrite Hs.
  split_tests; simpl; eauto 12.
Qed.

Lemma cluster_phase_tracker self io :
  tracker (cluster_phase self io) = tracker self ∧
  self_gate_id (cluster_phase self io) = self_gate_id self.
Proof. unfold cluster_phase. split_tests; simpl; auto. Qed.

(** *** The first phase, case by case *)

Lemma vehicle_phase_absent_idle self io :
  vehicles_of (detections io) = [] → session self = None →
  vehicle_phase cfg self io = FallThrough self [].
Proof. intros Hv Hs. unfold vehicle_phase. by rewrite Hv, Hs. Qed.

Lemma vehicle_phase_absent_wait self io s :
  vehicles_of (detections io) = [] → session self = Some s →
  ¬ (inject_Z (VEHICLE_ABSENCE_TIMEOUT cfg)
     < time_now io - last_vehicle_seen s)%Q →
  vehicle_phase cfg self io = FallThrough self [].
Proof.
  intros Hv Hs Hle. unfold vehicle_phase. rewrite Hv, Hs.
  destruct (Qlt_le_dec _ _); [contradiction | done].
Qed.

Lemma vehicle_phase_absent_end self io s :
  session self = Some s → absent_too_long cfg (last_vehicle_seen s) io →
  vehicle_phase cfg self io =
    Return {| self_gate_id := self_gate_id self;
              tracker := ByteTrack_new; session := None |}
           (to_dict (ended_session s io) (time_duration io))
           (stop_recording (set_ended true s) io).2.
Proof.
  intros Hs [Hv Hlt]. unfold vehicle_phase, ended_session.
  rewrite Hv, Hs.
  destruct (Qlt_le_dec _ _) as [_ | Hle].
  - by destruct (stop_recording (set_ended true s) io).
  - exfalso. eapply Qlt_not_le; eauto.
Qed.

Lemma vehicle_phase_present self io :
  vehicle_present io →
  ∃ s1 calls,
    vehicle_phase cfg self io =
      FallThrough {| self_gate_id := self_gate_id self;
                     tracker := tracker self; session := Some s1 |} calls
    ∧ last_vehicle_seen s1 = time_now io
    ∧ started_at s1 = started_at (session_on_entry self io)
    ∧ gate_id s1 = gate_id (session_on_entry self io)
    ∧ unique_bag_ids s1 = unique_bag_ids (session_on_entry self io)
    ∧ bag_cluster_count s1 = bag_cluster_count (session_on_entry self io)
    ∧ peak_bags_in_frame s1 = peak_bags_in_frame (session_on_entry self io)
    ∧ total_frames s1 = total_frames (session_on_entry self io)
    ∧ ended s1 = ended (session_on_entry self io).
Proof.
  unfold vehicle_present, Counter.vehicle_phase, session_on_entry.
  intros Hv. destruct (vehicles_of (detections io)) as [|v vs]; [done|].
  destruct (session self) as [s|]; [| destruct (frame io) as [f|]];
    simpl; eexists _, _; (split; [reflexivity | simpl; auto 10]).
Qed.

(** *** One call, case by case *)

Lemma process_frame_fall_through self io self1 calls1 :
  vehicle_phase cfg self io = FallThrough self1 calls1 →
  process_frame cfg self io =
    (cluster_phase (track_phase self1 io) io, None,
     calls1 ++ record_phase self1 io).
Proof. intros H. unfold process_frame. by rewrite H. Qed.

Lemma process_frame_end self io s :
  session self = Some s → absent_too_long cfg (last_vehicle_seen s) io →
  process_frame cfg self io =
    ({| self_gate_id := self_gate_id self;
        tracker := ByteTrack_new; session := None |},
     Some (to_dict (ended_session s io) (time_duration io)),
     (stop_recording (set_ended true s) io).2).
Proof.
  intros Hs Ha. unfold process_frame.
  by rewrite (vehicle_phase_absent_end self io s Hs Ha).
Qed.

Lemma later_phases_session self1 io s1 :
  session self1 = Some s1 →
  ∃ s', session (cluster_phase (track_phase self1 io) io) = Some s' ∧
        last_vehicle_seen s' = last_vehicle_seen s1 ∧
        started_at s' = started_at s1 ∧
        gate_id s' = gate_id s1 ∧
        video_writer s' = video_writer s1.
Proof.
  intros Hs.
  destruct (track_phase_clock self1 io s1 Hs)
    as (s2 & Hs2 & ? & ? & ? & ? & ?).
  destruct (cluster_phase_clock _ io s2 Hs2)
    as (s3 & Hs3 & ? & ? & ? & ? & ? & ? & ?).
  exists s3. repeat split; congruence.
Qed.

Lemma later_phases_idle self1 io :
  session self1 = None → cluster_phase (track_phase self1 io) io = self1.
Proof.
  intros Hs. unfold track_phase. rewrite Hs.
  unfold cluster_phase. by rewrite Hs.
Qed.

Lemma step_present self io :
  vehicle_present io →
  returned cfg self io = None ∧
  ∃ s', session (state_after cfg self io) = Some s' ∧
        last_vehicle_seen s' = time_now io ∧
        started_at s' = started_at (session_on_entry self io) ∧
        gate_id s' = gate_id (session_on_entry self io).
Proof.
  intros Hv.
  destruct (vehicle_phase_present self io Hv)
    as (s1 & calls & Hph & Hl & Hst & Hg & _).
  unfold returned, state_after.
  rewrite (process_frame_fall_through _ _ _ _ Hph). simpl. split; [done|].
  destruct (later_phases_session
              {| self_gate_id := self_gate_id self; tracker := tracker self;
                 session := Some s1 |} io s1 eq_refl)
    as (s' & Hs' & ? & ? & ? & ?).
  exists s'. repeat split; congruence.
Qed.

Lemma step_idle self io :
  vehicles_of (detections io) = [] → session self = None →
  process_frame cfg self io = (self, None, []).
Proof.
  intros Hv Hs.
  rewrite (process_frame_fall_through _ _ _ _
             (vehicle_phase_absent_idle self io Hv Hs)).
  rewrite later_phases_idle by done.
  unfold record_phase. by rewrite Hs.
Qed.

Lemma step_wait self io s :
  vehicles_of (detections io) = [] → session self = Some s →
  ¬ (inject_Z (VEHICLE_ABSENCE_TIMEOUT cfg)
     < time_now io - last_vehicle_seen s)%Q →
  returned cfg self io = None ∧
  ∃ s', session (state_after cfg self io) = Some s' ∧
        last_vehicle_seen s' = last_vehicle_seen s ∧
        started_at s' = started_at s ∧
        gate_id s' = gate_id s.
Proof.
  intros Hv Hs Hle. unfold returned, state_after.
  rewrite (process_frame_fall_through _ _ _ _
             (vehicle_phase_absent_wait self io s Hv Hs Hle)).
  simpl. split; [done|].
  destruct (later_phases_session self io s Hs) as (s' & ? & ? & ? & ? & ?).
  eauto 10.
Qed.

(** A tick either has the anchor subject on, or finds no visit, or ends
    the live visit, or leaves it waiting. *)
Lemma tick_cases self io :
  vehicle_present io ∨
  (vehicles_of (detections io) = [] ∧ session self = None) ∨
  (∃ s, session self = Some s ∧ absent_too_long cfg (last_vehicle_seen s) io) ∨
  (∃ s, vehicles_of (detections io) = [] ∧ session self = Some s ∧
        ¬ (inject_Z (VEHICLE_ABSENCE_TIMEOUT cfg)
           < time_now io - last_vehicle_seen s)%Q).
Proof.
  unfold vehicle_present, absent_too_long.
  destruct (vehicles_of (detections io)) as [|v vs] eqn:Hv; [| by left].
  right. destruct (session self) as [s|] eqn:Hs; [| by left].
  right.
  destruct (Qlt_le_dec (inject_Z (VEHICLE_ABSENCE_TIMEOUT cfg))
              (time_now io - last_vehicle_seen s)) as [Hlt | Hle].
  - left. eauto.
  - right. exists s. repeat split; try done.
    intros Hlt. eapply Qlt_not_le; eauto.
Qed.


Lemma run_cons self io rest :
  run cfg self (io :: rest) =
    ((run cfg (state_after cfg self io) rest).1,
     returned cfg self io :: (run cfg (state_after cfg self io) rest).2).
Proof.
  unfold state_after, returned. simpl.
  destruct (process_frame cfg self io) as [[self' out] calls]. simpl.
  by destruct (run cfg self' rest).
Qed.




(** *** What a tick adds to the live visit *)

Lemma track_phase_fields self io s :
  session self = Some s →
  ∃ s', session (track_phase self io) = Some s' ∧
        unique_bag_ids s'
          = unique_bag_ids s ∪ list_to_set (tracked_ids self io) ∧
        total_frames s'
          = total_frames s
            + (if decide (bags_of (detections io) = []) then 0 else 1) ∧
        (0 ≤ peak_bags_in_frame s →
         peak_bags_in_frame s'
           = Z.max (peak_bags_in_frame s) (bags_this_frame io)) ∧
        bag_cluster_count s' = bag_cluster_count s.
Proof.
  intros Hs. unfold track_phase, tracked_ids, bags_this_frame.
  rewrite Hs.
  destruct (bags_of (detections io)) as [|b bs] eqn:Hb.
  - exists s. rewrite decide_True by done.
    change (Py.len (@nil Detection)) with 0.
    split; [done|].
    split; [simpl; by rewrite union_empty_r_L|]. repeat split; intros; lia.
  - rewrite decide_False by done.
    destruct (update_with_detections (tracker self) (b :: bs))
      as [tr [tids|]]; simpl;
      destruct (Z.ltb_spec (peak_bags_in_frame s) (Py.len (b :: bs)));
      simpl; eexists; (split; [reflexivity|]); simpl;
      (split; [first [reflexivity | apply eq_sym, union_empty_r_L] |]);
      repeat split; intros; lia.
Qed.

Lemma cluster_phase_fields self io s :
  session self = Some s →
  ∃ s', session (cluster_phase self io) = Some s' ∧
        (0 ≤ bag_cluster_count s →
         bag_cluster_count s'
           = Z.max (bag_cluster_count s) (cluster_count io)) ∧
        unique_bag_ids s' = unique_bag_ids s ∧
        total_frames s' = total_frames s ∧
        peak_bags_in_frame s' = peak_bags_in_frame s.
Proof.
  intros Hs. unfold cluster_phase, cluster_count. rewrite Hs.
  destruct (clusters_of (detections io)) as [|c cs] eqn:Hcl.
  - exists s. change (Py.len (@nil Detection)) with 0.
    split; [done|]. repeat split; intros; lia.
  - destruct (Z.ltb_spec (bag_cluster_count s) (Py.len (c :: cs))).
    + eexists. split; [reflexivity|]. simpl. repeat split; intros; lia.
    + exists s. split; [done|]. repeat split; intros; lia.
Qed.

(** A call that leaves a visit attached went through the first phase
    with that visit, whose counters are those on entry. *)
Lemma vehicle_phase_live self io s' :
  session (state_after cfg self io) = Some s' →
  ∃ s1 calls1,
    vehicle_phase cfg self io =
      FallThrough {| self_gate_id := self_gate_id self;
                     tracker := tracker self; session := Some s1 |} calls1
    ∧ unique_bag_ids s1 = unique_bag_ids (session_on_entry self io)
    ∧ bag_cluster_count s1 = bag_cluster_count (session_on_entry self io)
    ∧ peak_bags_in_frame s1 = peak_bags_in_frame (session_on_entry self io)
    ∧ total_frames s1 = total_frames (session_on_entry self io)
    ∧ frames_written calls1 = []
    ∧ match video_writer s1 with Some w => isOpened w | None => false end
      = recording self io.
Proof.
  intros Hafter.
  destruct (tick_cases self io)
    as [Hp | [[Hv Hn] | [(s0 & Hs0 & Ha) | (s0 & Hv & Hs0 & Hle)]]].
  - unfold vehicle_present in Hp.
    unfold vehicle_phase, session_on_entry, recording.
    destruct (vehicles_of (detections io)) as [|v vs]; [done|].
    destruct (session self) as [s|]; [| destruct (frame io) as [f|]];
      simpl; eexists _, _; (split; [reflexivity | simpl; auto 10]).
  - unfold state_after in Hafter. rewrite (step_idle self io Hv Hn) in Hafter.
    simpl in Hafter. congruence.
  - unfold state_after in Hafter.
    rewrite (process_frame_end self io s0 Hs0 Ha) in Hafter. done.
  - exists s0, []. rewrite (vehicle_phase_absent_wait self io s0 Hv Hs0 Hle).
    unfold session_on_entry, recording. rewrite Hs0.
    destruct self as [g tr se]. simpl in *. subst se. auto 10.
Qed.

Lemma frames_written_app (c1 c2 : list SinkCall) :
  frames_written (c1 ++ c2) = frames_written c1 ++ frames_written c2.
Proof. unfold frames_written. apply omap_app. Qed.

Lemma live_tick self io s' :
  session (state_after cfg self io) = Some s' →
  returned cfg self io = None ∧
  unique_bag_ids s'
    = unique_bag_ids (session_on_entry self io)
      ∪ list_to_set (tracker_output cfg self io) ∧
  total_frames s'
    = total_frames (session_on_entry self io)
      + (if decide (bags_of (detections io) = []) then 0 else 1) ∧
  (0 ≤ peak_bags_in_frame (session_on_entry self io) →
   peak_bags_in_frame s'
     = Z.max (peak_bags_in_frame (session_on_entry self io))
         (bags_this_frame io)) ∧
  (0 ≤ bag_cluster_count (session_on_entry self io) →
   bag_cluster_count s'
     = Z.max (bag_cluster_count (session_on_entry self io))
         (cluster_count io)) ∧
  frames_written (sink_calls cfg self io)
    = match frame io with
      | Some f => if recording self io then [f] else []
      | None => []
      end.
Proof.
  intros Hafter.
  destruct (vehicle_phase_live self io s' Hafter)
    as (s1 & calls1 & Hph & Hu1 & Hc1 & Hp1 & Ht1 & Hw1 & Hrec).
  unfold returned, sink_calls, tracker_output. unfold state_after in Hafter.
  rewrite (process_frame_fall_through _ _ _ _ Hph) in *. rewrite Hph.
  simpl in *. set (self1 := Build_BagCounter _ _ _) in *.
  destruct (track_phase_fields self1 io s1 eq_refl)
    as (s2 & Hs2 & Hu2 & Ht2 & Hp2 & Hc2).
  destruct (cluster_phase_fields (track_phase self1 io) io s2 Hs2)
    as (s3 & Hs3 & Hc3 & Hu3 & Ht3 & Hp3).
  assert (s3 = s') as -> by congruence.
  split; [done|].
  split; [congruence|]. split; [congruence|].
  split; [intros; rewrite Hp3, Hp2; [congruence | lia]|].
  split; [intros; rewrite Hc3; [congruence | lia]|].
  rewrite frames_written_app, Hw1. simpl.
  unfold record_phase, write_frame. simpl. rewrite <- Hrec.
  destruct (frame io) as [f|]; [| done].
  destruct (video_writer s1) as [[[|]]|]; reflexivity.
Qed.

Lemma counts_ok_new g t1 t2 : counts_ok (UnloadingSession_new g t1 t2).
Proof. unfold counts_ok. simpl. lia. Qed.

Lemma counts_ok_step self io s' :
  session (state_after cfg self io) = Some s' →
  counts_ok (session_on_entry self io) → counts_ok s'.
Proof.
  intros Hafter (Hc & Hp & Ht).
  destruct (live_tick self io s' Hafter) as (_ & _ & Ht' & Hp' & Hc' & _).
  specialize (Hp' Hp). specialize (Hc' Hc). unfold counts_ok.
  destruct (decide (bags_of (detections io) = [])); lia.
Qed.

(** *** Emission of the completed visit *)


(** *** Creation of a visit *)


(** *** A visit over several ticks *)

Lemma stays_live self io s :
  session self = Some s → returned cfg self io = None →
  ∃ s1, session (state_after cfg self io) = Some s1.
Proof.
  intros Hs Hret.
  destruct (tick_cases self io)
    as [Hp | [[Hv Hn] | [(s0 & Hs0 & Ha) | (s0 & Hv & Hs0 & Hle)]]].
  - destruct (step_present self io Hp) as [_ (s1 & H1 & _)]. eauto.
  - congruence.
  - unfold returned in Hret.
    rewrite (process_frame_end self io s0 Hs0 Ha) in Hret. done.
  - destruct (step_wait self io s0 Hv Hs0 Hle) as [_ (s1 & H1 & _)]. eauto.
Qed.

Lemma cluster_count_nonneg io : 0 ≤ cluster_count io.
Proof. unfold cluster_count, Py.len. lia. Qed.

Lemma max_count_cons n ns : max_count (n :: ns) = Z.max n (max_count ns).
Proof. reflexivity. Qed.

Lemma max_count_nonneg ns : 0 ≤ max_count ns.
Proof. induction ns; [done | rewrite max_count_cons; lia]. Qed.

(** While no record is returned, the live visit accumulates the
    identities the tracker returns and the largest cluster count. *)
Lemma live_visit_accumulates ios : ∀ self s,
  session self = Some s →
  Forall (λ o, o = None) (run cfg self ios).2 →
  ∃ s', session (run cfg self ios).1 = Some s' ∧
        unique_bag_ids s'
          = unique_bag_ids s ∪ list_to_set (tracked_during cfg self ios) ∧
        (0 ≤ bag_cluster_count s →
         bag_cluster_count s'
           = Z.max (bag_cluster_count s) (max_count (cluster_count <$> ios))).
Proof.
  induction ios as [|io rest IH]; intros self s Hs Hnone.
  - exists s. simpl. split; [done|].
    split; [by rewrite union_empty_r_L | intros; lia].
  - rewrite run_cons in Hnone |- *. simpl in Hnone.
    inversion Hnone as [|? ? Hret Hrest]; subst.
    destruct (stays_live self io s Hs Hret) as (s1 & Hs1).
    destruct (live_tick self io s1 Hs1) as (_ & Hu & _ & _ & Hc & _).
    unfold session_on_entry in Hu, Hc. rewrite Hs in Hu, Hc.
    destruct (IH _ s1 Hs1 Hrest) as (s' & Hs' & Hu' & Hc').
    exists s'. cbn [fst snd tracked_during]. split; [done|]. split.
    + rewrite Hu', Hu, list_to_set_app_L. by rewrite (assoc_L (∪)).
    + intros H0. specialize (Hc H0).
      pose proof (cluster_count_nonneg io).
      rewrite fmap_cons, max_count_cons.
      rewrite Hc', Hc by lia. lia.
Qed.

(** The same from the tick that creates the visit. *)
Lemma new_visit_accumulates self io0 ios :
  session self = None → vehicle_present io0 →
  Forall (λ o, o = None) (run cfg self (io0 :: ios)).2 →
  ∃ s', session (run cfg self (io0 :: ios)).1 = Some s' ∧
        unique_bag_ids s'
          = list_to_set (tracked_during cfg self (io0 :: ios)) ∧
        bag_cluster_count s'
          = max_count (cluster_count <$> io0 :: ios).
Proof.
  intros Hs Hp Hnone. rewrite run_cons in Hnone |- *. simpl in Hnone.
  inversion Hnone as [|? ? Hret Hrest]; subst.
  destruct (step_present self io0 Hp) as [_ (s1 & Hs1 & _)].
  destruct (live_tick self io0 s1 Hs1) as (_ & Hu & _ & _ & Hc & _).
  unfold session_on_entry in Hu, Hc. rewrite Hs in Hu, Hc. simpl in Hu, Hc.
  specialize (Hc ltac:(lia)).
  destruct (live_visit_accumulates ios _ s1 Hs1 Hrest) as (s' & Hs' & Hu' & Hc').
  pose proof (cluster_count_nonneg io0).
  pose proof (max_count_nonneg (cluster_count <$> ios)).
  exists s'. cbn [fst snd tracked_during]. split; [done|]. split.
  - rewrite Hu', Hu, list_to_set_app_L. by rewrite union_empty_l_L.
  - rewrite fmap_cons, max_count_cons. rewrite Hc', Hc by lia. lia.
Qed.

(** *** The set of tracked identities *)

(** C3. While a visit is live its set [unique_bag_ids] only grows from one
    call of [process_frame] to the next, hence so does [bag_count], and
    every element added by a call was returned by the tracker in that
    call; from the tick that creates the visit on, the set holds exactly
    the identities the tracker has returned during the visit. *)
Theorem unique_bag_ids_grow_from_tracker :
  (∀ self io s s',
     session self = Some s →
     session (state_after cfg self io) = Some s' →
     unique_bag_ids s ⊆ unique_bag_ids s' ∧
     bag_count s ≤ bag_count s' ∧
     ∀ id, id ∈ unique_bag_ids s' →
           id ∈ unique_bag_ids s ∨ id ∈ tracker_output cfg self io) ∧
  (∀ self io0 ios,
     session self = None → vehicle_present io0 →
     Forall (λ o, o = None) (run cfg self (io0 :: ios)).2 →
     ∃ s', session (run cfg self (io0 :: ios)).1 = Some s' ∧
           ∀ id, id ∈ unique_bag_ids s' ↔
                 id ∈ tracked_during cfg self (io0 :: ios)).
Proof.
  split.
  - intros self io s s' Hs Hs'.
    destruct (live_tick self io s' Hs') as (_ & Hu & _).
    unfold session_on_entry in Hu. rewrite Hs in Hu.
    assert (unique_bag_ids s ⊆ unique_bag_ids s') as Hsub.
    { rewrite Hu. apply union_subseteq_l. }
    split; [done|]. split.
    + unfold bag_count. apply inj_le. by apply subseteq_size.
    + intros id. rewrite Hu, elem_of_union, elem_of_list_to_set. tauto.
  - intros self io0 ios Hs Hp Hnone.
    destruct (new_visit_accumulates self io0 ios Hs Hp Hnone)
      as (s' & Hs' & Hu & _).
    exists s'. split; [done|]. intros id.
    by rewrite Hu, elem_of_list_to_set.
Qed.

(** *** The cluster high-water mark *)







(** *** A tick of a live visit *)

(** C5 (amended). On every tick after which a visit is attached, that is
    every tick processed while a visit is live or created and that does
    not end it, whether or not the anchor subject is present and whatever
    the classes of the detections: [total_frames] is incremented when the
    tick holds at least one bag-class detection and is unchanged otherwise;
    the frame, if supplied, is appended to the video when the visit has an
    opened writer, and only then; the identities the tracker returns are
    added to [unique_bag_ids], the tracker being called only when there is
    a bag-class detection; [peak_bags_in_frame] becomes the maximum of
    itself and the number of bag-class detections; [bag_cluster_count]
    becomes the maximum of itself and the number of cluster-class
    detections. *)
Theorem live_tick_updates self io s' :
  session (state_after cfg self io) = Some s' →
  counts_ok (session_on_entry self io) →
  total_frames s'
    = total_frames (session_on_entry self io)
      + (if decide (bags_of (detections io) = []) then 0 else 1) ∧
  frames_written (sink_calls cfg self io)
    = match frame io with
      | Some f => if recording self io then [f] else []
      | None => []
      end ∧
  unique_bag_ids s'
    = unique_bag_ids (session_on_entry self io)
      ∪ list_to_set (tracker_output cfg self io) ∧
  (bags_of (detections io) = [] → tracker_output cfg self io = []) ∧
  peak_bags_in_frame s'
    = Z.max (peak_bags_in_frame (session_on_entry self io))
        (bags_this_frame io) ∧
  bag_cluster_count s'
    = Z.max (bag_cluster_count (session_on_entry self io))
        (cluster_count io).
Proof.
  intros Hafter (Hc & Hp & Ht).
  destruct (live_tick self io s' Hafter) as (_ & Hu & Ht' & Hp' & Hc' & Hw).
  repeat split; auto.
  intros Hb. unfold tracker_output, tracked_ids.
  destruct (vehicle_phase cfg self io); [| done].
  rewrite Hb. by destruct (session self0).
Qed.

(** *** The tick that ends the visit *)

Lemma ended_session_fields s io :
  ended (ended_session s io) = true ∧
  unique_bag_ids (ended_session s io) = unique_bag_ids s ∧
  bag_cluster_count (ended_session s io) = bag_cluster_count s ∧
  peak_bags_in_frame (ended_session s io) = peak_bags_in_frame s ∧
  total_frames (ended_session s io) = total_frames s ∧
  started_at (ended_session s io) = started_at s ∧
  last_vehicle_seen (ended_session s io) = last_vehicle_seen s.
Proof.
  unfold ended_session, stop_recording.
  destruct (video_writer (set_ended true s)); simpl;
    split_tests; simpl; auto 10.
Qed.

Lemma stop_recording_calls s io :
  frames_written (stop_recording s io).2 = [].
Proof.
  unfold stop_recording.
  destruct (video_writer s); simpl; split_tests; reflexivity.
Qed.

(** C9. On the tick that ends a visit (anchor subject absent, time since
    [last_vehicle_seen] past the timeout) [process_frame] returns the
    completed record built from the session as the previous ticks left
    it: the tracker is not called and [unique_bag_ids], and so the bag
    count of the record, is unchanged; the cluster count, the peak and
    [total_frames] of the record are those the session had on entry; and
    no frame is appended to the video. *)
Theorem finalizing_tick_adds_nothing self io s :
  session self = Some s →
  absent_too_long cfg (last_vehicle_seen s) io →
  ∃ record,
    returned cfg self io = Some record ∧
    d_bag_count record = bag_count s ∧
    d_bag_cluster_count record = bag_cluster_count s ∧
    d_estimated_total record = estimated_total s ∧
    d_peak_bags_in_frame record = peak_bags_in_frame s ∧
    d_total_frames record = total_frames s ∧
    tracker_output cfg self io = [] ∧
    frames_written (sink_calls cfg self io) = [] ∧
    session (state_after cfg self io) = None.
Proof.
  intros Hs Ha.
  destruct (ended_session_fields s io) as (_ & Hu & Hc & Hp & Ht & _).
  unfold returned, sink_calls, state_after, tracker_output.
  rewrite (process_frame_end self io s Hs Ha).
  rewrite (vehicle_phase_absent_end self io s Hs Ha).
  eexists. split; [reflexivity|]. simpl.
  unfold estimated_total, bag_count. rewrite Hu, Hc, Hp, Ht.
  repeat split. apply stop_recording_calls.
Qed.

(** *** The duration of the completed record *)


End Aggregator.

(** *** The properties on concrete visits *)

Import Examples.



(** Scenario 1 of the specification, up to its third tick: the set holds
    the identities 1 to 4. *)
Lemma unique_bag_ids_grow_from_tracker_witness :
  session counter0 = None ∧
  vehicle_present (tick 0 [vehicle (9 # 10); bag 1; bag 2] (Some image)) ∧
  Forall (λ o, o = None) (run defaults counter0 (take 3 scenario1)).2 ∧
  ∃ s', session (run defaults counter0 (take 3 scenario1)).1 = Some s' ∧
        ∀ id, id ∈ unique_bag_ids s' ↔
              id ∈ tracked_during defaults counter0 (take 3 scenario1).
Proof.
  assert (vehicle_present
            (tick 0 [vehicle (9 # 10); bag 1; bag 2] (Some image))) as Hp.
  { intros H. discriminate H. }
  assert (Forall (λ o : option SessionDict, o = None)
            (run defaults counter0 (take 3 scenario1)).2) as Hnone.
  { vm_compute. repeat constructor. }
  split; [reflexivity|]. split; [exact Hp|]. split; [exact Hnone|].
  exact (proj2 (unique_bag_ids_grow_from_tracker defaults)
           counter0 _ _ eq_refl Hp Hnone).
Defined.

(** Scenario 1 to its end: the record is returned at the fifth tick, the
    first one later than 30 s after the anchor subject was last seen. *)
Example scenario1_emissions :
  (λ o : option SessionDict, bool_decide (is_Some o))
    <$> (run defaults counter0 scenario1).2
  = [false; false; false; false; true; false] ∧
  (λ o : option SessionDict, d_bag_count <$> o)
    <$> (run defaults counter0 scenario1).2
  = [None; None; None; None; Some 4; None].
Proof. vm_compute. split; reflexivity. Qed.

Example scenario1_identities :
  tracked_during defaults counter0 (take 3 scenario1) = [1; 2; 2; 3; 3; 4].
Proof. vm_compute. reflexivity. Qed.


Example scenario2_high_water :
  cluster_count <$> scenario2 = [2; 5; 3; 1] ∧
  max_count (cluster_count <$> scenario2) = 5 ∧
  sum_count (cluster_count <$> scenario2) = 11.
Proof. vm_compute. repeat split. Qed.


(** A tick of a live visit without the anchor subject, with one bag and
    one cluster, within the timeout. *)
Lemma live_tick_updates_witness :
  session (state_after defaults counter1 (tick 5 [bag 3; cluster] (Some image)))
    = Some (set_bag_cluster_count 1
              (set_total_frames 2
                 (set_unique_bag_ids {[ 1; 2; 3 ]} session1))) ∧
  counts_ok (session_on_entry counter1 (tick 5 [bag 3; cluster] (Some image))) ∧
  total_frames
    (set_bag_cluster_count 1
       (set_total_frames 2 (set_unique_bag_ids {[ 1; 2; 3 ]} session1)))
  = total_frames
      (session_on_entry counter1 (tick 5 [bag 3; cluster] (Some image)))
    + (if decide (bags_of (detections (tick 5 [bag 3; cluster] (Some image)))
                  = [])
       then 0 else 1).
Proof.
  assert (session (state_after defaults counter1
                     (tick 5 [bag 3; cluster] (Some image)))
          = Some (set_bag_cluster_count 1
                    (set_total_frames 2
                       (set_unique_bag_ids {[ 1; 2; 3 ]} session1)))) as Hs.
  { vm_compute. reflexivity. }
  assert (counts_ok (session_on_entry counter1
                       (tick 5 [bag 3; cluster] (Some image)))) as Hok.
  { vm_compute. repeat split; discriminate. }
  split; [exact Hs|]. split; [exact Hok|].
  exact (proj1 (live_tick_updates defaults counter1 _ _ Hs Hok)).
Defined.

(** C5, as stated, fails: a tick of a live visit that holds the anchor
    subject and no bag leaves [total_frames] as it was. *)
Lemma total_frames_not_incremented :
  session counter1 = Some session1 ∧
  ∃ s', session (state_after defaults counter1 vehicle_only) = Some s' ∧
        total_frames s' = total_frames session1 ∧
        total_frames s' ≠ total_frames session1 + 1.
Proof.
  split; [reflexivity|]. vm_compute.
  eexists. split; [reflexivity|]. split; [reflexivity | discriminate].
Qed.

(** The tick that ends the visit holds a bag and a cluster and comes with
    a frame: none of them enters the record. *)
Lemma finalizing_tick_adds_nothing_witness :
  session counter1 = Some session1 ∧
  absent_too_long defaults (last_vehicle_seen session1)
    (tick 31 [bag 7; cluster] (Some image)) ∧
  ∃ record,
    returned defaults counter1 (tick 31 [bag 7; cluster] (Some image))
      = Some record ∧
    d_bag_count record = bag_count session1 ∧
    d_bag_cluster_count record = bag_cluster_count session1 ∧
    d_estimated_total record = estimated_total session1 ∧
    d_peak_bags_in_frame record = peak_bags_in_frame session1 ∧
    d_total_frames record = total_frames session1 ∧
    tracker_output defaults counter1 (tick 31 [bag 7; cluster] (Some image))
      = [] ∧
    frames_written
      (sink_calls defaults counter1 (tick 31 [bag 7; cluster] (Some image)))
      = [] ∧
    session (state_after defaults counter1
               (tick 31 [bag 7; cluster] (Some image))) = None.
Proof.
  assert (absent_too_long defaults (last_vehicle_seen session1)
            (tick 31 [bag 7; cluster] (Some image))) as Ha.
  { split; reflexivity. }
  split; [reflexivity|]. split; [exact Ha|].
  exact (finalizing_tick_adds_nothing defaults counter1 _ session1 eq_refl Ha).
Defined.



End CounterTheory.

(** * Properties of the reporter *)

Module MainTheory.
Import Config.
Import Counter.
Import Main.
Import Tactics.

Section Reporter.
Context (cfg : Config.t).

Lemma report_session_skips session post :
  d_estimated_total session < MIN_BAG_COUNT_TO_REPORT cfg →
  report_session cfg session post
    = [LogSkipped (d_gate_id session) (d_estimated_total session)].
Proof.
  intros Hlt. unfold report_session.
  by destruct (Z.ltb_spec (d_estimated_total session)
                 (MIN_BAG_COUNT_TO_REPORT cfg)); [| lia].
Qed.

(** The shape of a report that is attempted: one request, then one log
    line that tells how it went. *)
Lemma report_session_posts session post :
  MIN_BAG_COUNT_TO_REPORT cfg ≤ d_estimated_total session →
  ∃ req,
    req_json req = session ∧ req_timeout req = 10 ∧
    report_session cfg session post =
      [Post req;
       match post req with
       | Responded resp =>
           if bool_decide (status_code resp ∈ [200; 201]) then
             LogReported (d_gate_id session) (d_estimated_total session)
           else
             LogRejected (status_code resp)
               (String.substring 0 200 (text resp))
       | RequestException e => LogFailed e
       end].
Proof.
  intros Hge. unfold report_session.
  destruct (Z.ltb_spec (d_estimated_total session)
              (MIN_BAG_COUNT_TO_REPORT cfg)); [lia|].
  eexists. split; [| split]; [| | f_equal]; [reflexivity | reflexivity |].
  destruct (post _) as [resp | e]; [| done].
  by destruct (bool_decide _).
Qed.

(** C6. [report_session] performs no reporting call exactly when the
    [estimated_total] of the record is strictly below
    [MIN_BAG_COUNT_TO_REPORT]; at or above the threshold it attempts
    exactly one call. The [estimated_total] of a completed record is its
    [bag_count] plus its [bag_cluster_count]. *)
Theorem report_skipped_iff_below_threshold :
  (∀ session post,
     posts (report_session cfg session post) = 0%nat ↔
     d_estimated_total session < MIN_BAG_COUNT_TO_REPORT cfg) ∧
  (∀ session post,
     MIN_BAG_COUNT_TO_REPORT cfg ≤ d_estimated_total session →
     posts (report_session cfg session post) = 1%nat) ∧
  (∀ s clock,
     d_estimated_total (to_dict s clock)
       = d_bag_count (to_dict s clock) + d_bag_cluster_count (to_dict s clock)).
Proof.
  assert (∀ session post,
            MIN_BAG_COUNT_TO_REPORT cfg ≤ d_estimated_total session →
            posts (report_session cfg session post) = 1%nat) as Hone.
  { intros session post Hge.
    destruct (report_session_posts session post Hge) as (req & _ & _ & ->).
    unfold posts. simpl.
    destruct (post req) as [resp | e]; [| done].
    by destruct (bool_decide _). }
  split; [| split; [exact Hone | reflexivity]].
  intros session post. split.
  - intros Hzero.
    destruct (Z.lt_ge_cases (d_estimated_total session)
                (MIN_BAG_COUNT_TO_REPORT cfg)) as [| Hge]; [done|].
    rewrite (Hone session post Hge) in Hzero. discriminate.
  - intros Hlt. by rewrite report_session_skips.
Qed.

(** C8 (amended). When [report_session] issues the reporting call, a
    response with status code 200 or 201 is classified as success (logged
    as a reported session); every other response, other codes of the 2xx
    range included, and every transport error is classified as failure
    and logged; in each case exactly one call is made: nothing is retried
    or resent. *)
Theorem report_outcome_classified session post :
  MIN_BAG_COUNT_TO_REPORT cfg ≤ d_estimated_total session →
  ∃ req,
    req_json req = session ∧
    head (report_session cfg session post) = Some (Post req) ∧
    posts (report_session cfg session post) = 1%nat ∧
    match post req with
    | Responded resp =>
        if decide (status_code resp = 200 ∨ status_code resp = 201) then
          logged_success (report_session cfg session post) ∧
          ¬ logged_failure (report_session cfg session post)
        else
          logged_failure (report_session cfg session post) ∧
          ¬ logged_success (report_session cfg session post)
    | RequestException _ =>
        logged_failure (report_session cfg session post) ∧
        ¬ logged_success (report_session cfg session post)
    end.
Proof.
  intros Hge.
  destruct (report_session_posts session post Hge) as (req & Hj & _ & ->).
  exists req. split; [done|]. split; [done|].
  unfold logged_success, logged_failure, posts.
  destruct (post req) as [resp | e]; simpl.
  - destruct (decide (status_code resp = 200 ∨ status_code resp = 201))
      as [Hok | Hno].
    + rewrite bool_decide_eq_true_2
        by (destruct Hok as [-> | ->]; repeat constructor).
      split; [done|]. split; [eexists _, _; repeat constructor|].
      intros [(c & b & H) | (e & H)]; no_such_line H.
    + rewrite bool_decide_eq_false_2
        by (intros H; apply Hno; no_such_line H; auto).
      split; [done|]. split; [left; eexists _, _; repeat constructor|].
      intros (g & n & H); no_such_line H.
  - split; [done|]. split; [right; eexists; repeat constructor|].
    intros (g & n & H); no_such_line H.
Qed.

End Reporter.

Import Examples.

(** Scenario 4 of the specification: a total of 3 with threshold 1 is
    reported, a total of 0 is skipped. *)
Lemma report_skipped_iff_below_threshold_witness :
  MIN_BAG_COUNT_TO_REPORT defaults ≤ d_estimated_total record3 ∧
  posts (report_session defaults record3 (answers 200)) = 1%nat.
Proof.
  assert (MIN_BAG_COUNT_TO_REPORT defaults ≤ d_estimated_total record3) as H.
  { vm_compute. discriminate. }
  split; [exact H|].
  exact (proj1 (proj2 (report_skipped_iff_below_threshold defaults))
           record3 (answers 200) H).
Defined.

Example report_skipped_total_0 :
  report_session defaults record0 (answers 200) = [LogSkipped "gate1" 0].
Proof. reflexivity. Qed.

Lemma report_outcome_classified_witness :
  MIN_BAG_COUNT_TO_REPORT defaults ≤ d_estimated_total record3 ∧
  ∃ req,
    req_json req = record3 ∧
    head (report_session defaults record3 down) = Some (Post req) ∧
    posts (report_session defaults record3 down) = 1%nat ∧
    match down req with
    | Responded resp =>
        if decide (status_code resp = 200 ∨ status_code resp = 201) then
          logged_success (report_session defaults record3 down) ∧
          ¬ logged_failure (report_session defaults record3 down)
        else
          logged_failure (report_session defaults record3 down) ∧
          ¬ logged_success (report_session defaults record3 down)
    | RequestException _ =>
        logged_failure (report_session defaults record3 down) ∧
        ¬ logged_success (report_session defaults record3 down)
    end.
Proof.
  assert (MIN_BAG_COUNT_TO_REPORT defaults ≤ d_estimated_total record3) as H.
  { vm_compute. discriminate. }
  split; [exact H|].
  exact (report_outcome_classified defaults record3 down H).
Defined.

(** C8, as stated, fails: a response with status 204, in the 2xx range,
    is logged as a rejected report, not as a reported session. *)
Lemma status_204_classified_as_failure :
  MIN_BAG_COUNT_TO_REPORT defaults ≤ d_estimated_total record3 ∧
  200 ≤ 204 ≤ 299 ∧
  LogRejected 204 "" ∈ report_session defaults record3 (answers 204) ∧
  logged_failure (report_session defaults record3 (answers 204)) ∧
  ¬ logged_success (report_session defaults record3 (answers 204)).
Proof.
  split; [vm_compute; discriminate|]. split; [lia|].
  assert (∃ req, report_session defaults record3 (answers 204)
                 = [Post req; LogRejected 204 ""]) as (req & ->).
  { eexists. reflexivity. }
  split; [repeat constructor|].
  split; [left; eexists _, _; repeat constructor|].
  intros (g & n & H). no_such_line H.
Qed.

End MainTheory.

(** * Properties of the frame source *)

Module CameraTheory.
Import Counter.
Import Camera.

Lemma read_loop_running cs a rest :
  _running cs = true →
  _read_loop cs (a :: rest) =
    (let '(cs1, tr1) := read_loop_pass cs a in
     let '(cs2, gone, tr2) := _read_loop cs1 rest in
     (cs2, gone, tr1 ++ tr2)).
Proof. intros Hrun. simpl. by rewrite Hrun. Qed.

Lemma set_failures_same cs :
  set_failures (_consecutive_failures cs) cs = cs.
Proof. by destruct cs. Qed.

(** A run of open failures leaves the loop going: the passes that follow
    are made, with the failure count raised by the length of the run. *)
Lemma read_loop_open_failures (k : nat) : ∀ cs,
  _running cs = true →
  ∃ tr,
    sleeps tr
      = (λ i, inject_Z (Z.min (_reconnect_delay cs * i) 60))
          <$> seqZ (_consecutive_failures cs + 1) (Z.of_nat k) ∧
    ∀ rest,
      _read_loop cs (replicate k OpenFails ++ rest) =
        (let '(c, gone, tr') :=
           _read_loop
             (set_failures (_consecutive_failures cs + Z.of_nat k) cs) rest in
         (c, gone, tr ++ tr')).
Proof.
  induction k as [|k IH]; intros cs Hrun.
  - exists []. split; [done|]. intros rest.
    change (Z.of_nat 0) with 0. rewrite Z.add_0_r, set_failures_same.
    simpl. by destruct (_read_loop cs rest) as [[c gone] tr'].
  - set (cs1 := set_failures (_consecutive_failures cs + 1) cs).
    destruct (IH cs1 Hrun) as (tr & Hsleeps & Hloop).
    exists ([WarnOpenFailed (_consecutive_failures cs + 1)
               (Z.min (_reconnect_delay cs * (_consecutive_failures cs + 1)) 60);
             Sleep (inject_Z
                      (Z.min (_reconnect_delay cs
                              * (_consecutive_failures cs + 1)) 60))] ++ tr).
    split.
    + rewrite seqZ_cons by lia.
      replace (Z.pred (Z.of_nat (S k))) with (Z.of_nat k) by lia.
      unfold sleeps in *. simpl. f_equal. exact Hsleeps.
    + intros rest. cbn [replicate app].
      rewrite read_loop_running by done.
      cbn [read_loop_pass]. fold cs1.
      rewrite (Hloop rest).
      replace (set_failures (_consecutive_failures cs1 + Z.of_nat k) cs1)
        with (set_failures (_consecutive_failures cs + Z.of_nat (S k)) cs).
      2:{ unfold cs1, set_failures. simpl. f_equal. lia. }
      by destruct (_read_loop _ rest) as [[c gone] tr'].
Qed.

Lemma spec_backoff_eq (k : Z) : Z.min (5 * k) 60 = spec_backoff 5 60 k.
Proof. unfold spec_backoff. lia. Qed.

(** C7. For every [k >= 1], after [k] consecutive failures to open the
    stream the loop has slept the delays [min(5 * i, 60)] for [i = 1..k],
    so that the [k]-th wait is [min(5 * k, 60)] seconds (base delay 5,
    maximum 60); that delay equals [5 * min(k, 12)] capped at 60, the
    wording of the frame-source algorithm. The loop has not left after
    the failures: [_running] still holds and whatever comes next is
    processed. *)
Theorem reconnect_backoff (cs : CameraStream) (k : nat) :
  _running cs = true →
  _reconnect_delay cs = 5 →
  _consecutive_failures cs = 0 →
  (1 ≤ k)%nat →
  ∃ cs_k tr,
    _read_loop cs (replicate k OpenFails) = (cs_k, false, tr) ∧
    sleeps tr
      = (λ i, inject_Z (Z.min (5 * i) 60)) <$> seqZ 1 (Z.of_nat k) ∧
    last (sleeps tr) = Some (inject_Z (Z.min (5 * Z.of_nat k) 60)) ∧
    Z.min (5 * Z.of_nat k) 60 = spec_backoff 5 60 (Z.of_nat k) ∧
    _running cs_k = true ∧
    _consecutive_failures cs_k = Z.of_nat k ∧
    ∀ rest,
      _read_loop cs (replicate k OpenFails ++ rest) =
        (let '(c, gone, tr') := _read_loop cs_k rest in (c, gone, tr ++ tr')).
Proof.
  intros Hrun Hdelay Hfail Hk.
  destruct (read_loop_open_failures k cs Hrun) as (tr & Hsleeps & Hloop).
  rewrite Hdelay, Hfail in Hsleeps. rewrite Hfail in Hloop.
  change (0 + 1) with 1 in Hsleeps. rewrite Z.add_0_l in Hloop.
  exists (set_failures (Z.of_nat k) cs), tr.
  split.
  { specialize (Hloop []). rewrite app_nil_r in Hloop. rewrite Hloop.
    simpl. rewrite Hrun. by rewrite app_nil_r. }
  split; [exact Hsleeps|]. split.
  { rewrite Hsleeps. destruct k as [|k]; [lia|].
    rewrite seqZ_S, fmap_snoc, last_snoc. do 3 f_equal. lia. }
  split; [apply spec_backoff_eq|].
  split; [exact Hrun|]. split; [reflexivity | exact Hloop].
Qed.

Import Examples.

(** Scenario 3 of the specification: three consecutive open failures wait
    5 s, 10 s and 15 s. *)
Lemma reconnect_backoff_witness :
  _running camera0 = true ∧
  _reconnect_delay camera0 = 5 ∧
  _consecutive_failures camera0 = 0 ∧
  (1 ≤ 3)%nat ∧
  ∃ cs_k tr,
    _read_loop camera0 (replicate 3 OpenFails) = (cs_k, false, tr) ∧
    sleeps tr = (λ i, inject_Z (Z.min (5 * i) 60)) <$> seqZ 1 3 ∧
    last (sleeps tr) = Some (inject_Z (Z.min (5 * 3) 60)) ∧
    Z.min (5 * 3) 60 = spec_backoff 5 60 3 ∧
    _running cs_k = true ∧
    _consecutive_failures cs_k = 3 ∧
    ∀ rest,
      _read_loop camera0 (replicate 3 OpenFails ++ rest) =
        (let '(c, gone, tr') := _read_loop cs_k rest in (c, gone, tr ++ tr')).
Proof.
  split; [reflexivity|]. split; [reflexivity|]. split; [reflexivity|].
  split; [lia|].
  exact (reconnect_backoff camera0 3 eq_refl eq_refl eq_refl ltac:(lia)).
Defined.

Example three_open_failures :
  sleeps (_read_loop camera0 (replicate 3 OpenFails)).2
    = [inject_Z 5; inject_Z 10; inject_Z 15].
Proof. reflexivity. Qed.

(** From the thirteenth failure on the wait stays at the maximum. *)
Example backoff_is_capped :
  Z.min (5 * 12) 60 = 60 ∧ Z.min (5 * 13) 60 = 60 ∧ spec_backoff 5 60 40 = 60.
Proof. repeat split. Qed.

End CameraTheory.

(** * A visit from its first tick to its record *)

Module VisitTheory.
Import Config.
Import Counter.
Import Tactics.
Import CounterTheory.

Section Visits.
Context (cfg : Config.t) `{BT : ByteTrack}.

Lemma has_vehicle_present io : has_vehicle io = true ↔ vehicle_present io.
Proof.
  unfold has_vehicle, vehicle_present.
  destruct (vehicles_of (detections io)); split; done.
Qed.

Lemma has_vehicle_absent io :
  has_vehicle io = false ↔ vehicles_of (detections io) = [].
Proof.
  unfold has_vehicle. destruct (vehicles_of (detections io)); split; done.
Qed.

(** The tracking and cluster steps leave the vehicle statistics, the
    clock and the video fields of the session alone. *)
Lemma later_phases_keep self1 io s1 :
  session self1 = Some s1 →
  ∃ s', session (cluster_phase (track_phase self1 io) io) = Some s' ∧
        vehicle_detections s' = vehicle_detections s1 ∧
        vehicle_confidence_sum s' = vehicle_confidence_sum s1 ∧
        last_vehicle_seen s' = last_vehicle_seen s1 ∧
        started_at s' = started_at s1 ∧
        gate_id s' = gate_id s1 ∧
        video_writer s' = video_writer s1 ∧
        video_path s' = video_path s1 ∧
        video_size_bytes s' = video_size_bytes s1 ∧
        ended s' = ended s1.
Proof.
  intros Hs. unfold cluster_phase, track_phase. rewrite Hs.
  split_tests; simpl in *; simplify_eq;
    first [ eexists; split; [reflexivity|]; simpl; by auto 12
          | exists s1; split; [done|]; by auto 12 ].
Qed.

Lemma live_tick_vehicle self io s' :
  session (state_after cfg self io) = Some s' →
  vehicle_detections s'
    = vehicle_detections (session_on_entry self io)
      + (if has_vehicle io then 1 else 0) ∧
  vehicle_confidence_sum s'
    = (if has_vehicle io
       then (vehicle_confidence_sum (session_on_entry self io)
             + best_confidence io)%Q
       else vehicle_confidence_sum (session_on_entry self io)) ∧
  last_vehicle_seen s'
    = (if has_vehicle io then time_now io
       else last_vehicle_seen (session_on_entry self io)) ∧
  started_at s' = started_at (session_on_entry self io) ∧
  gate_id s' = gate_id (session_on_entry self io).
Proof.
  intros Hafter.
  destruct (tick_cases cfg self io)
    as [Hp | [[Hv Hn] | [(s0 & Hs0 & Ha) | (s0 & Hv & Hs0 & Hle)]]].
  - unfold state_after, process_frame in Hafter.
    unfold has_vehicle, best_confidence, session_on_entry.
    unfold vehicle_present in Hp. unfold vehicle_phase in Hafter.
    destruct (vehicles_of (detections io)) as [|v vs]; [done|].
    destruct (session self) as [s|]; [| destruct (frame io) as [f|]];
      simpl in Hafter;
      match type of Hafter with
      | session (cluster_phase (track_phase ?self1 io) io) = _ =>
          destruct (later_phases_keep self1 io _ eq_refl)
            as (s2 & Hs2 & Hd & Hc & Hl & Hst & Hg & _)
      end;
      rewrite Hs2 in Hafter; simplify_eq; simpl in *; auto.
  - unfold state_after in Hafter. rewrite (step_idle cfg self io Hv Hn) in Hafter.
    simpl in Hafter. congruence.
  - unfold state_after in Hafter.
    rewrite (process_frame_end cfg self io s0 Hs0 Ha) in Hafter. done.
  - apply has_vehicle_absent in Hv as Hhv. rewrite Hhv.
    unfold session_on_entry. rewrite Hs0.
    unfold state_after in Hafter.
    apply has_vehicle_absent in Hhv.
    rewrite (process_frame_fall_through cfg _ _ _ _
               (vehicle_phase_absent_wait cfg self io s0 Hhv Hs0 Hle)) in Hafter.
    simpl in Hafter.
    destruct (later_phases_keep self io s0 Hs0)
      as (s2 & Hs2 & Hd & Hc & Hl & Hst & Hg & _).
    rewrite Hs2 in Hafter. simplify_eq. rewrite Hd. split; [lia|]. auto.
Qed.

Lemma vehicle_ticks_cons io ios :
  vehicle_ticks (io :: ios)
  = (if has_vehicle io then 1 else 0) + vehicle_ticks ios.
Proof.
  unfold vehicle_ticks, Py.len. simpl.
  destruct (has_vehicle io); simpl; lia.
Qed.

Lemma bag_ticks_cons io ios :
  bag_ticks (io :: ios) = (if has_bags io then 1 else 0) + bag_ticks ios.
Proof.
  unfold bag_ticks, Py.len. simpl. destruct (has_bags io); simpl; lia.
Qed.


Lemma has_bags_decide io :
  (if decide (bags_of (detections io) = []) then 0 else 1)
  = (if has_bags io then 1 else 0).
Proof.
  unfold has_bags. destruct (bags_of (detections io)); [done|].
  by rewrite decide_False.
Qed.

Lemma bags_this_frame_nonneg io : 0 ≤ bags_this_frame io.
Proof. unfold bags_this_frame, Py.len. lia. Qed.

(** What the ticks of a visit that stays live add to its session. *)
Lemma live_visit_statistics ios : ∀ self s,
  session self = Some s →
  Forall (λ o, o = None) (run cfg self ios).2 →
  ∃ s', session (run cfg self ios).1 = Some s' ∧
        vehicle_detections s' = vehicle_detections s + vehicle_ticks ios ∧
        vehicle_confidence_sum s'
          = fold_left (λ acc io, if has_vehicle io
                                 then (acc + best_confidence io)%Q else acc)
              ios (vehicle_confidence_sum s) ∧
        last_vehicle_seen s' = last_seen (last_vehicle_seen s) ios ∧
        started_at s' = started_at s ∧
        gate_id s' = gate_id s ∧
        total_frames s' = total_frames s + bag_ticks ios ∧
        (0 ≤ peak_bags_in_frame s →
         peak_bags_in_frame s'
           = Z.max (peak_bags_in_frame s)
               (max_count (bags_this_frame <$> ios))).
Proof.
  induction ios as [|io rest IH]; intros self s Hs Hnone.
  - exists s. cbn [run fst snd fold_left last_seen].
    unfold vehicle_ticks, bag_ticks, Py.len. simpl length.
    repeat split; try done; try lia. intros. simpl. lia.
  - rewrite run_cons in Hnone |- *. cbn [fst snd] in Hnone |- *.
    inversion Hnone as [|? ? Hret Hrest]; subst.
    destruct (stays_live cfg self io s Hs Hret) as (s1 & Hs1).
    destruct (live_tick_vehicle self io s1 Hs1) as (Hd & Hc & Hl & Hst & Hg).
    destruct (live_tick cfg self io s1 Hs1) as (_ & _ & Ht & Hp & _).
    unfold session_on_entry in *. rewrite Hs in *.
    destruct (IH _ s1 Hs1 Hrest)
      as (s' & Hs' & Hd' & Hc' & Hl' & Hst' & Hg' & Ht' & Hp').
    exists s'. split; [done|].
    rewrite vehicle_ticks_cons, bag_ticks_cons.
    unfold last_seen in *. cbn [fold_left].
    rewrite <- Hc, <- Hl.
    split; [lia|]. split; [done|]. split; [done|].
    split; [congruence|]. split; [congruence|].
    split; [rewrite Ht', Ht, has_bags_decide; lia|].
    intros H0. specialize (Hp H0).
    pose proof (bags_this_frame_nonneg io).
    rewrite fmap_cons, max_count_cons. rewrite Hp', Hp by lia. lia.
Qed.

(** The same from the tick that creates the visit. *)
Lemma new_visit_statistics self io0 ios :
  session self = None → vehicle_present io0 →
  Forall (λ o, o = None) (run cfg self (io0 :: ios)).2 →
  ∃ s', session (run cfg self (io0 :: ios)).1 = Some s' ∧
        vehicle_detections s' = vehicle_ticks (io0 :: ios) ∧
        vehicle_confidence_sum s' = confidence_total (io0 :: ios) ∧
        last_vehicle_seen s' = last_seen (time_now io0) ios ∧
        started_at s' = time_started_at io0 ∧
        gate_id s' = self_gate_id self ∧
        total_frames s' = bag_ticks (io0 :: ios) ∧
        peak_bags_in_frame s' = max_count (bags_this_frame <$> io0 :: ios).
Proof.
  intros Hs Hp Hnone. rewrite run_cons in Hnone |- *.
  cbn [fst snd] in Hnone |- *.
  inversion Hnone as [|? ? Hret Hrest]; subst.
  destruct (step_present cfg self io0 Hp) as [_ (s1 & Hs1 & _)].
  destruct (live_tick_vehicle self io0 s1 Hs1) as (Hd & Hc & Hl & Hst & Hg).
  destruct (live_tick cfg self io0 s1 Hs1) as (_ & _ & Ht & Hpk & _).
  apply has_vehicle_present in Hp as Hhv. rewrite Hhv in *.
  unfold session_on_entry in *. rewrite Hs in *. simpl in Hd, Hc, Hl, Hst, Hg, Ht, Hpk.
  specialize (Hpk ltac:(lia)).
  destruct (live_visit_statistics ios _ s1 Hs1 Hrest)
    as (s' & Hs' & Hd' & Hc' & Hl' & Hst' & Hg' & Ht' & Hp').
  pose proof (bags_this_frame_nonneg io0).
  pose proof (max_count_nonneg (bags_this_frame <$> ios)).
  exists s'. split; [done|].
  rewrite vehicle_ticks_cons, bag_ticks_cons, Hhv.
  unfold confidence_total. cbn [fold_left]. rewrite Hhv, <- Hc.
  split; [lia|]. split; [done|]. split; [congruence|].
  split; [congruence|]. split; [congruence|].
  split; [rewrite Ht', Ht, has_bags_decide; lia|].
  rewrite fmap_cons, max_count_cons. rewrite Hp', Hpk by lia. lia.
Qed.

(** *** Vehicle statistics of a visit *)







(** *** Frame statistics, identity and clock of a visit *)

Lemma bag_ticks_range ios : 0 ≤ bag_ticks ios ≤ Py.len ios.
Proof.
  unfold bag_ticks, Py.len.
  pose proof (List.filter_length_le has_bags ios). lia.
Qed.

Lemma no_bag_tick_iff ios :
  bag_ticks ios = 0 ↔ max_count (bags_this_frame <$> ios) = 0.
Proof.
  induction ios as [|io rest IH]; [done|].
  rewrite bag_ticks_cons, fmap_cons, max_count_cons.
  pose proof (bag_ticks_range rest).
  pose proof (max_count_nonneg (bags_this_frame <$> rest)).
  pose proof (bags_this_frame_nonneg io).
  assert (if has_bags io then 0 < bags_this_frame io
          else bags_this_frame io = 0) as Hb.
  { unfold has_bags, bags_this_frame, Py.len.
    destruct (bags_of (detections io)); simpl; lia. }
  destruct (has_bags io); lia.
Qed.

(** X2. For a visit live since the tick that created it, [total_frames]
    is the number of ticks of the visit that hold at least one bag-class
    detection, at most the number of ticks; [peak_bags_in_frame] is the
    largest number of bag-class detections in one tick; and the one is 0
    exactly when the other is. *)
Theorem frame_statistics self io0 ios :
  session self = None → vehicle_present io0 →
  Forall (λ o, o = None) (run cfg self (io0 :: ios)).2 →
  ∃ s', session (run cfg self (io0 :: ios)).1 = Some s' ∧
        total_frames s' = bag_ticks (io0 :: ios) ∧
        0 ≤ total_frames s' ≤ Py.len (io0 :: ios) ∧
        peak_bags_in_frame s' = max_count (bags_this_frame <$> io0 :: ios) ∧
        (total_frames s' = 0 ↔ peak_bags_in_frame s' = 0).
Proof.
  intros Hs Hp Hnone.
  destruct (new_visit_statistics self io0 ios Hs Hp Hnone)
    as (s' & Hs' & _ & _ & _ & _ & _ & Ht & Hpk).
  exists s'. rewrite Ht, Hpk.
  split; [done|]. split; [done|].
  split; [apply bag_ticks_range|]. split; [done|]. apply no_bag_tick_iff.
Qed.

(** X3. A visit keeps, as long as it is live, the gate of the counter
    that created it and the start time read when it was created, and its
    [last_vehicle_seen] is the time of the latest tick that held a vehicle:
    ticks without a vehicle do not move it. *)
Theorem visit_identity_and_clock self io0 ios :
  session self = None → vehicle_present io0 →
  Forall (λ o, o = None) (run cfg self (io0 :: ios)).2 →
  ∃ s', session (run cfg self (io0 :: ios)).1 = Some s' ∧
        gate_id s' = self_gate_id self ∧
        started_at s' = time_started_at io0 ∧
        last_vehicle_seen s' = last_seen (time_now io0) ios.
Proof.
  intros Hs Hp Hnone.
  destruct (new_visit_statistics self io0 ios Hs Hp Hnone)
    as (s' & Hs' & _ & _ & Hl & Hst & Hg & _).
  exists s'. auto.
Qed.

(** *** Runs *)

Lemma run_app ios1 : ∀ self ios2,
  run cfg self (ios1 ++ ios2)
  = ((run cfg (run cfg self ios1).1 ios2).1,
     (run cfg self ios1).2 ++ (run cfg (run cfg self ios1).1 ios2).2).
Proof.
  induction ios1 as [|io rest IH]; intros self ios2.
  - simpl. by destruct (run cfg self ios2).
  - rewrite <- app_comm_cons, !run_cons, IH. reflexivity.
Qed.



(** *** The completed record *)



(** *** The video sink *)

Lemma sink_discipline_app c1 : ∀ b c2,
  sink_discipline b (c1 ++ c2)
  = sink_discipline b c1 ≫= λ b', sink_discipline b' c2.
Proof.
  induction c1 as [|c rest IH]; intros b c2; [done|].
  destruct c, b; simpl; auto.
Qed.

Lemma has_writer_later self1 io :
  has_writer (cluster_phase (track_phase self1 io) io) = has_writer self1.
Proof.
  unfold has_writer at 2.
  destruct (session self1) as [s1|] eqn:Hs1.
  - destruct (later_phases_keep self1 io s1 Hs1)
      as (s' & Hs' & _ & _ & _ & _ & _ & Hw & _).
    unfold has_writer. by rewrite Hs', Hw.
  - rewrite later_phases_idle by done. unfold has_writer. by rewrite Hs1.
Qed.

Lemma stop_recording_release s io :
  (stop_recording s io).2
  = match video_writer s with Some _ => [SinkRelease] | None => [] end.
Proof.
  unfold stop_recording.
  destruct (video_writer s); simpl; split_tests; reflexivity.
Qed.

Lemma tick_sink_discipline self io :
  sink_discipline (has_writer self) (sink_calls cfg self io)
  = Some (has_writer (state_after cfg self io)).
Proof.
  unfold sink_calls, state_after, process_frame.
  destruct (vehicle_phase cfg self io) as [self1 calls1 | self1 rec calls1]
    eqn:Hph; cbn [fst snd].
  - rewrite has_writer_later.
    revert Hph. unfold vehicle_phase, has_writer, record_phase, write_frame,
      start_recording.
    destruct (vehicles_of (detections io)) as [|v vs];
      destruct (session self) as [s|] eqn:Hs;
      repeat match goal with
        | |- context [Qlt_le_dec ?a ?b] => destruct (Qlt_le_dec a b)
        | |- context [stop_recording ?a ?b] => destruct (stop_recording a b)
        end;
      try destruct (frame io) as [f|];
      intros Hph; simplify_eq; simpl; rewrite ?Hs; simpl;
      try destruct (video_writer s) as [[[|]]|];
      try destruct (sink_opens io); reflexivity.
  - revert Hph. unfold vehicle_phase, has_writer.
    destruct (vehicles_of (detections io)) as [|v vs];
      destruct (session self) as [s|] eqn:Hs;
      try destruct (frame io) as [f|]; try done;
      (destruct (Qlt_le_dec _ _); [| done]);
      pose proof (stop_recording_release (set_ended true s) io) as Hrel;
      destruct (stop_recording (set_ended true s) io) as [s2 calls];
      intros Hph; simplify_eq; simpl in *; subst;
      by destruct (video_writer s).
Qed.

(** X5. Over any sequence of ticks and from any counter the calls on the
    video sink respect its discipline: a writer is opened only when the
    counter holds none, frames are written and the writer released only
    while it holds one, and after the calls the sink is open exactly when
    the counter holds a writer. *)
Theorem video_sink_discipline ios : ∀ self,
  sink_discipline (has_writer self) (run_sink_calls cfg self ios)
  = Some (has_writer (run cfg self ios).1).
Proof.
  induction ios as [|io rest IH]; intros self; [done|].
  cbn [run_sink_calls]. rewrite run_cons. cbn [fst].
  rewrite sink_discipline_app, tick_sink_discipline. simpl. apply IH.
Qed.

(** *** After a visit *)

Lemma gate_kept self io :
  self_gate_id (state_after cfg self io) = self_gate_id self.
Proof.
  unfold state_after, process_frame.
  destruct (vehicle_phase cfg self io) as [self1 calls1 | self1 rec calls1]
    eqn:Hph; cbn [fst snd].
  - destruct (cluster_phase_tracker (track_phase self1 io) io) as [_ ->].
    assert (self_gate_id (track_phase self1 io) = self_gate_id self1) as ->.
    { unfold track_phase. split_tests; reflexivity. }
    revert Hph. unfold vehicle_phase. split_tests; intros; by simplify_eq.
  - revert Hph. unfold vehicle_phase. split_tests; intros; by simplify_eq.
Qed.

(** X6. The tick that completes a visit leaves the counter as a newly
    built one for the same gate, so the calls that follow return what a
    new counter returns: nothing of the finished visit, tracker state
    included, reaches the next one. *)
Theorem counter_is_new_after_completion self io :
  finalizes cfg self io →
  state_after cfg self io = BagCounter_new (self_gate_id self) ∧
  ∀ rest,
    run cfg self (io :: rest)
    = ((run cfg (BagCounter_new (self_gate_id self)) rest).1,
       returned cfg self io
         :: (run cfg (BagCounter_new (self_gate_id self)) rest).2).
Proof.
  intros (s & Hs & Ha).
  assert (state_after cfg self io = BagCounter_new (self_gate_id self)) as Heq.
  { unfold state_after. by rewrite (process_frame_end cfg self io s Hs Ha). }
  split; [done|]. intros rest. by rewrite run_cons, Heq.
Qed.

End Visits.

(** *** Scenario 1 of the specification as a visit *)

Import Examples.

Lemma scenario1_first_tick :
  vehicle_present (tick 0 [vehicle (9 # 10); bag 1; bag 2] (Some image)).
Proof. intros H. discriminate H. Qed.

Lemma scenario1_live :
  Forall (λ o : option SessionDict, o = None)
    (run defaults counter0 (take 4 scenario1)).2.
Proof. vm_compute. repeat constructor. Qed.


Lemma frame_statistics_witness :
  session counter0 = None ∧
  vehicle_present (tick 0 [vehicle (9 # 10); bag 1; bag 2] (Some image)) ∧
  Forall (λ o, o = None) (run defaults counter0 (take 4 scenario1)).2 ∧
  ∃ s', session (run defaults counter0 (take 4 scenario1)).1 = Some s' ∧
        total_frames s' = 3 ∧ peak_bags_in_frame s' = 2.
Proof.
  split; [reflexivity|]. split; [exact scenario1_first_tick|].
  split; [exact scenario1_live|].
  destruct (frame_statistics defaults counter0 _ _ eq_refl
              scenario1_first_tick scenario1_live)
    as (s' & Hs' & Ht & _ & Hp & _).
  exists s'. split; [exact Hs'|]. split.
  - rewrite Ht. vm_compute. reflexivity.
  - rewrite Hp. vm_compute. reflexivity.
Defined.

Lemma visit_identity_and_clock_witness :
  session counter0 = None ∧
  vehicle_present (tick 0 [vehicle (9 # 10); bag 1; bag 2] (Some image)) ∧
  Forall (λ o, o = None) (run defaults counter0 (take 4 scenario1)).2 ∧
  ∃ s', session (run defaults counter0 (take 4 scenario1)).1 = Some s' ∧
        gate_id s' = "gate1" ∧ started_at s' = 0%Q ∧
        last_vehicle_seen s' = 2%Q.
Proof.
  split; [reflexivity|]. split; [exact scenario1_first_tick|].
  split; [exact scenario1_live|].
  destruct (visit_identity_and_clock defaults counter0 _ _ eq_refl
              scenario1_first_tick scenario1_live)
    as (s' & Hs' & Hg & Hst & Hl).
  exists s'. split; [exact Hs'|]. split; [exact Hg|]. split; [exact Hst|].
  rewrite Hl. reflexivity.
Defined.


Lemma counter_is_new_after_completion_witness :
  finalizes defaults counter1 (tick 31 [bag 7; cluster] (Some image)) ∧
  state_after defaults counter1 (tick 31 [bag 7; cluster] (Some image))
    = counter0.
Proof.
  assert (finalizes defaults counter1
            (tick 31 [bag 7; cluster] (Some image))) as Hfin.
  { exists session1. split; [reflexivity|]. split; reflexivity. }
  split; [exact Hfin|].
  exact (proj1 (counter_is_new_after_completion defaults counter1 _ Hfin)).
Defined.

(** The sink calls of scenario 1: the writer is opened at the first tick,
    takes the frames of the four ticks of the visit and is released at
    the fifth. *)
Example scenario1_sink_calls :
  run_sink_calls defaults counter0 scenario1
  = [SinkOpen "/tmp/detection_videos/gate1_20250101_000000.mp4"
       (10 # 1) 640 480;
     SinkWrite image; SinkWrite image; SinkWrite image; SinkWrite image;
     SinkRelease].
Proof. vm_compute. reflexivity. Qed.

End VisitTheory.

(** * The frame source over a whole script *)

Module StreamTheory.
Import Counter.
Import Camera.
Import CameraTheory.

(** *** The latest frame *)





(** *** Stopping *)





(** *** Waits *)






(** *** The count of failures restarts *)



(** *** On a script *)

Import Examples.





Example script0_trace :
  backoffs (_read_loop camera0 script0).2 = [(1, 5); (2, 10); (1, 5)] ∧
  sleeps (_read_loop camera0 script0).2
    = [5; 10; 1 # 1000; 1 # 1000; 5; 5]%Q ∧
  get_frame (_read_loop camera0 script0).1.1 = Some image.
Proof. vm_compute. repeat split. Qed.

End StreamTheory.

(** * The camera configuration *)

Module UrlsTheory.
Import PyStr.
Import Urls.

(** *** Splitting and joining *)

Lemma split_nonempty sep s : split sep s ≠ [].
Proof.
  destruct s as [|c r]; [done|]. simpl.
  destruct (Ascii.eqb c sep); [done|]. by destruct (split sep r).
Qed.

Lemma split_app_sep sep p t :
  ¬ In sep p → split sep (p ++ sep :: t) = p :: split sep t.
Proof.
  induction p as [|c p IH]; intros Hnot.
  - simpl. by rewrite Ascii.eqb_refl.
  - simpl. destruct (Ascii.eqb_spec c sep) as [-> | Hne].
    + destruct Hnot. by left.
    + rewrite IH; [done|]. intros Hin. apply Hnot. by right.
Qed.

Lemma split_nosep sep p : ¬ In sep p → split sep p = [p].
Proof.
  induction p as [|c p IH]; intros Hnot; [done|].
  simpl. destruct (Ascii.eqb_spec c sep) as [-> | Hne].
  - destruct Hnot. by left.
  - rewrite IH; [done|]. intros Hin. apply Hnot. by right.
Qed.

Lemma split_join sep parts :
  parts ≠ [] → Forall (λ p, ¬ In sep p) parts →
  split sep (join sep parts) = parts.
Proof.
  intros Hne Hall. induction Hall as [|p rest Hp Hrest IH]; [done|].
  destruct rest as [|q rest].
  - simpl. by apply split_nosep.
  - change (join sep (p :: q :: rest)) with (p ++ sep :: join sep (q :: rest)).
    rewrite split_app_sep by done. f_equal. by apply IH.
Qed.

(** *** Stripping *)

Lemma lstrip_length s : (length (lstrip s) ≤ length s)%nat.
Proof.
  induction s as [|c r IH]; [done|]. simpl.
  destruct (isspace c); simpl; lia.
Qed.

Lemma lstrip_fix s : length (lstrip s) = length s → lstrip s = s.
Proof.
  destruct s as [|c r]; [done|]. simpl.
  destruct (isspace c); [| done].
  pose proof (lstrip_length r). simpl. lia.
Qed.

Lemma strip_fix s : strip s = s → lstrip s = s ∧ lstrip (rev s) = rev s.
Proof.
  unfold strip, rstrip. intros H.
  assert (length (lstrip (rev (lstrip s))) = length s) as Hlen.
  { rewrite <- H at 2. by rewrite length_rev. }
  pose proof (lstrip_length (rev (lstrip s))) as H1.
  pose proof (lstrip_length s) as H2.
  rewrite length_rev in H1.
  assert (lstrip s = s) as Hl by (apply lstrip_fix; lia).
  split; [done|]. rewrite Hl in Hlen. apply lstrip_fix.
  by rewrite length_rev.
Qed.

Lemma strip_of_fix s : lstrip s = s → lstrip (rev s) = rev s → strip s = s.
Proof.
  intros H1 H2. unfold strip, rstrip. by rewrite H1, H2, rev_involutive.
Qed.

Lemma lstrip_app a b :
  lstrip a = a → (a = [] → lstrip b = b) → lstrip (a ++ b) = a ++ b.
Proof.
  destruct a as [|c a]; intros Ha Hb; [by apply Hb|].
  simpl in *. destruct (isspace c); [| done].
  pose proof (lstrip_length a) as Hlen. rewrite Ha in Hlen. simpl in Hlen. lia.
Qed.

Lemma strip_entry g u :
  strip g = g → strip u = u → strip (g ++ colon :: u) = g ++ colon :: u.
Proof.
  intros [Hg1 Hg2]%strip_fix [Hu1 Hu2]%strip_fix.
  apply strip_of_fix.
  - by apply lstrip_app.
  - rewrite rev_app_distr. simpl. rewrite <- app_assoc. simpl.
    by apply lstrip_app.
Qed.

(** *** Finding the colon and the slashes *)

Lemma find_colon g u :
  ¬ In colon g → find [colon] (g ++ colon :: u) = Some (length g).
Proof.
  induction g as [|c g IH]; intros Hnot.
  - reflexivity.
  - cbn [app find startswith].
    destruct (Ascii.eqb_spec colon c) as [<- | Hne].
    + destruct Hnot. by left.
    + cbn [andb]. rewrite IH; [done|]. intros Hin. apply Hnot. by right.
Qed.

Lemma find_colon_none e : find [colon] e = None ↔ ¬ In colon e.
Proof.
  induction e as [|c e IH]; [simpl; tauto|].
  cbn [find startswith].
  destruct (Ascii.eqb_spec colon c) as [<- | Hne]; cbn [andb].
  - split; [done|]. intros H. destruct H. by left.
  - destruct (find [colon] e) eqn:Hf; simpl.
    + split; [done|]. intros H. exfalso.
      assert (¬ In colon e) as H' by (intros ?; apply H; by right).
      by apply IH in H'.
    + split; [| done]. intros _ [Heq | Hin]; [by subst|].
      destruct IH as [IH _]. by apply IH.
Qed.

Lemma split_once_colon g u :
  ¬ In colon g → split_once colon (g ++ colon :: u) = Some (g, u).
Proof.
  induction g as [|c g IH]; intros Hnot.
  - reflexivity.
  - cbn [app split_once].
    destruct (Ascii.eqb_spec c colon) as [-> | Hne].
    + destruct Hnot. by left.
    + rewrite IH; [done|]. intros Hin. apply Hnot. by right.
Qed.

Lemma split_once_none e : split_once colon e = None ↔ find [colon] e = None.
Proof.
  induction e as [|c e IH]; [done|].
  cbn [split_once find startswith].
  rewrite (Ascii.eqb_sym colon c).
  destruct (Ascii.eqb c colon); cbn [andb]; [done|].
  destruct (split_once colon e), (find [colon] e); simpl; try done.
  - destruct IH as [_ IH]. by specialize (IH eq_refl).
  - destruct IH as [IH _]. by specialize (IH eq_refl).
Qed.

(** The first ["//"] of an entry comes after the colon that ends a gate
    id without ["//"]. *)
Lemma find_slashes_after g u j :
  find slashes g = None →
  find slashes (g ++ colon :: u) = Some j → (length g < j)%nat.
Proof.
  revert j. induction g as [|c g IH]; intros j Hg Hj.
  - simpl in Hj. destruct (find slashes u); simplify_eq/=. lia.
  - cbn [app find] in Hj, Hg.
    destruct (startswith slashes (c :: g)) eqn:Hs; [done|].
    assert (startswith slashes (c :: g ++ colon :: u) = false) as Hs'.
    { unfold slashes in *. cbn [startswith] in Hs |- *.
      destruct (Ascii.eqb "/" c); [| done]. cbn [andb] in *.
      destruct g as [|d g]; [done|]. cbn [app startswith] in *.
      by destruct (Ascii.eqb "/" d). }
    rewrite Hs' in Hj.
    destruct (find slashes g) eqn:Hfg; [done|].
    destruct (find slashes (g ++ colon :: u)) as [j'|] eqn:Hf; [| done].
    simplify_eq/=. specialize (IH j' eq_refl eq_refl). lia.
Qed.

Lemma takes_prefix_entry g u :
  ¬ In colon g → find slashes g = None →
  takes_prefix (g ++ colon :: u) = true.
Proof.
  intros Hc Hs. unfold takes_prefix. rewrite find_colon by done.
  destruct (find slashes (g ++ colon :: u)) as [j|] eqn:Hj; [| done].
  apply Nat.ltb_lt. by eapply find_slashes_after.
Qed.

(** *** The documented format *)

Lemma parse_formatted cams : ∀ acc,
  Forall well_formed cams →
  parse_entries (format_entry <$> cams) acc = Some (acc ++ cams).
Proof.
  induction cams as [|[g u] rest IH]; intros acc Hall.
  - simpl. by rewrite app_nil_r.
  - inversion Hall as [|? ? Hwf Hrest]; subst.
    destruct Hwf as (_ & _ & Hcolon & Hslash & Hg & Hu). simpl in *.
    cbn [fmap list_fmap parse_entries].
    change (format_entry (g, u)) with (g ++ colon :: u).
    rewrite strip_entry by done.
    destruct (g ++ colon :: u) as [|c e] eqn:He.
    { by destruct g. }
    rewrite <- He. rewrite takes_prefix_entry, split_once_colon by done.
    rewrite Hg, Hu. change (list_fmap _ _ ?f ?l) with (f <$> l).
    rewrite IH by done. by rewrite <- app_assoc.
Qed.

(** X11. [parse_camera_urls] reads back the documented format: for cameras
    whose gate id holds no comma, no colon and no ["//"], whose url holds
    no comma, and neither of which starts or ends with a blank, parsing
    the [gate_id:url] entries joined by commas returns those cameras, in
    order. *)
Theorem parse_format_roundtrip cams :
  Forall well_formed cams →
  parse_camera_urls (format_camera_urls cams) = Some cams.
Proof.
  intros Hall. unfold parse_camera_urls, format_camera_urls.
  destruct cams as [|cam rest]; [done|].
  rewrite split_join.
  - by rewrite parse_formatted.
  - done.
  - apply Forall_fmap. eapply Forall_impl; [exact Hall|].
    intros [g u] (Hg & Hu & _). unfold format_entry. simpl in *.
    intros [Hin | [Heq | Hin]]%in_app_or; [by apply Hg | done | by apply Hu].
Qed.

(** *** When parsing raises *)

Lemma takes_prefix_no_colon e :
  takes_prefix e = true → find [colon] e = None → find slashes e = None.
Proof.
  unfold takes_prefix. intros Ht Hc. rewrite Hc in Ht.
  by destruct (find slashes e).
Qed.

Lemma takes_prefix_false e :
  takes_prefix e = false → is_Some (find slashes e).
Proof. unfold takes_prefix. destruct (find slashes e); [eauto | done]. Qed.

Lemma parse_entries_outcome entries : ∀ acc,
  (parse_entries entries acc = None ↔ Exists raises entries) ∧
  (∀ cams, parse_entries entries acc = Some cams →
     length cams
     = (length acc + length (List.filter (λ e, negb (blank e)) entries))%nat).
Proof.
  induction entries as [|entry rest IH]; intros acc.
  - simpl. split.
    + split; [done | by intros ?%Exists_nil].
    + intros cams [= <-]. lia.
  - cbn [parse_entries List.filter]. unfold blank at 1.
    rewrite Exists_cons. unfold raises at 1.
    destruct (strip entry) as [|c e] eqn:He.
    { destruct (IH acc) as [IH1 IH2]. split.
      - rewrite IH1. split; [by right | by intros [(? & _) | ?]].
      - exact IH2. }
    cbn [negb length].
    destruct (takes_prefix (c :: e)) eqn:Ht.
    + destruct (split_once colon (c :: e)) as [[gate_id url]|] eqn:Hsp.
      * destruct (IH (acc ++ [(strip gate_id, strip url)])) as [IH1 IH2].
        split.
        -- rewrite IH1. split; [by right|].
           intros [(_ & _ & Hc) | ?]; [| done].
           apply split_once_none in Hc. congruence.
        -- intros cams Hcams. specialize (IH2 cams Hcams).
           rewrite length_app in IH2. simpl in *. lia.
      * split; [| done]. split; [| done]. intros _. left.
        apply split_once_none in Hsp.
        split; [done|]. split; [by apply takes_prefix_no_colon | done].
    + destruct (IH (acc ++ [(String.list_ascii_of_string "gate"
                                ++ decimal (length acc + 1),
                              strip (c :: e))])) as [IH1 IH2].
      apply takes_prefix_false in Ht as [j Hj].
      split.
      * rewrite IH1. split; [by right|].
        intros [(_ & Hs & _) | ?]; [congruence | done].
      * intros cams Hcams. specialize (IH2 cams Hcams).
        rewrite length_app in IH2. simpl in *. lia.
Qed.

(** X12. [parse_camera_urls] raises [ValueError] exactly when one of the
    comma-separated entries, once stripped, is not empty and holds neither
    a colon nor ["//"]; otherwise it returns one camera for each entry
    that is not blank, blank entries being skipped. *)
Theorem parse_raises_iff raw :
  (parse_camera_urls raw = None ↔ Exists raises (split comma raw)) ∧
  (∀ cams, parse_camera_urls raw = Some cams →
     length cams
     = length (List.filter (λ e, negb (blank e)) (split comma raw))).
Proof.
  unfold parse_camera_urls.
  destruct (parse_entries_outcome (split comma raw) []) as [H1 H2].
  split; [exact H1|]. intros cams Hc. by rewrite (H2 cams Hc).
Qed.

(** *** One entry *)

Lemma split_once_at e : ∀ i,
  find [colon] e = Some i →
  split_once colon e = Some (take i e, drop (S i) e).
Proof.
  induction e as [|c e IH]; intros i; [done|].
  cbn [find startswith split_once]. rewrite (Ascii.eqb_sym colon c).
  destruct (Ascii.eqb c colon); cbn [andb].
  - by intros [= <-].
  - destruct (find [colon] e) as [i'|]; [| done].
    intros [= <-]. by rewrite (IH i' eq_refl).
Qed.

(** X13. What [parse_camera_urls] makes of a single entry, without comma
    or surrounding blanks: with a colon and either no ["//"] or a ["//"]
    after that colon, the entry is cut at its first colon into gate id and
    url (so a url given alone is cut at the colon of its scheme); with a
    ["//"] that no colon comes before, the camera is named [gate1]; with
    neither colon nor ["//"], [ValueError] is raised. *)
Theorem single_entry e :
  ¬ In comma e → strip e = e → e ≠ [] →
  match find [colon] e, find slashes e with
  | Some i, Some j =>
      if (i <? j)%nat
      then parse_camera_urls e
           = Some [(strip (take i e), strip (drop (S i) e))]
      else parse_camera_urls e
           = Some [(String.list_ascii_of_string "gate1", e)]
  | Some i, None =>
      parse_camera_urls e = Some [(strip (take i e), strip (drop (S i) e))]
  | None, Some j =>
      parse_camera_urls e = Some [(String.list_ascii_of_string "gate1", e)]
  | None, None => parse_camera_urls e = None
  end.
Proof.
  intros Hcomma Hstrip Hne. unfold parse_camera_urls.
  rewrite split_nosep by done. cbn [parse_entries]. rewrite Hstrip.
  destruct e as [|c e']; [done|]. set (e := c :: e') in *.
  unfold takes_prefix.
  destruct (find [colon] e) as [i|] eqn:Hc;
    destruct (find slashes e) as [j|] eqn:Hs.
  - destruct (i <? j)%nat; [by rewrite (split_once_at e i Hc)|].
    by rewrite Hstrip.
  - by rewrite (split_once_at e i Hc).
  - by rewrite Hstrip.
  - apply split_once_none in Hc. by rewrite Hc.
Qed.

(** *** Entries without gate id *)

Lemma parse_unprefixed entries : ∀ acc,
  Forall unprefixed entries →
  parse_entries entries acc = Some (acc ++ auto_named (length acc) entries).
Proof.
  induction entries as [|e rest IH]; intros acc Hall.
  - simpl. by rewrite app_nil_r.
  - inversion Hall as [|? ? (_ & Hstrip & Ht) Hrest]; subst.
    cbn [parse_entries auto_named]. rewrite Hstrip.
    destruct e as [|c e'].
    { by vm_compute in Ht. }
    rewrite Ht, Hstrip, IH by done.
    rewrite length_app, <- app_assoc. simpl.
    by replace (length acc + 1)%nat with (S (length acc)) by lia.
Qed.

(** X14. Entries without gate id, each holding a ["//"] that no colon
    comes before, are named [gate1], [gate2], ... in the order of the
    configuration, each keeping its whole text as url. *)
Theorem unprefixed_entries_are_numbered entries :
  entries ≠ [] → Forall unprefixed entries →
  parse_camera_urls (join comma entries) = Some (auto_named 0 entries).
Proof.
  intros Hne Hall. unfold parse_camera_urls.
  rewrite split_join; [| done |].
  - by rewrite parse_unprefixed.
  - eapply Forall_impl; [exact Hall|]. by intros e (Hc & _).
Qed.

(** *** On configurations *)

Import Examples.

Lemma parse_format_roundtrip_witness :
  Forall well_formed two_cameras ∧
  parse_camera_urls (format_camera_urls two_cameras) = Some two_cameras.
Proof.
  assert (Forall well_formed two_cameras) as Hwf.
  { unfold two_cameras, slash_entries.
    repeat (apply List.Forall_cons;
              [vm_compute; repeat split; try reflexivity;
               intros H; repeat destruct H as [H | H];
               first [discriminate H | contradiction] |]).
    apply List.Forall_nil. }
  split; [exact Hwf|]. exact (parse_format_roundtrip two_cameras Hwf).
Defined.

Example two_cameras_text :
  format_camera_urls two_cameras
  = str ("gate1:rtsp://192.168.1.10:554/stream1,"
         +:+ "gate2:rtsp://192.168.1.11:554/stream1").
Proof. vm_compute. reflexivity. Qed.

Lemma single_entry_witness :
  ¬ In comma bare_url ∧ strip bare_url = bare_url ∧ bare_url ≠ [] ∧
  parse_camera_urls bare_url
  = Some [(str "rtsp", str "//192.168.1.10:554/stream1")].
Proof.
  assert (¬ In comma bare_url) as Hc.
  { vm_compute. intros H. repeat destruct H as [H | H];
      first [discriminate H | contradiction]. }
  assert (strip bare_url = bare_url) as Hs by (vm_compute; reflexivity).
  assert (bare_url ≠ []) as Hn by discriminate.
  split; [exact Hc|]. split; [exact Hs|]. split; [exact Hn|].
  exact (single_entry bare_url Hc Hs Hn).
Defined.

Lemma unprefixed_entries_are_numbered_witness :
  slash_entries ≠ [] ∧ Forall unprefixed slash_entries ∧
  parse_camera_urls (join comma slash_entries)
  = Some [(str "gate1", str "//192.168.1.10/stream1");
          (str "gate2", str "//192.168.1.11/stream1")].
Proof.
  assert (slash_entries ≠ []) as Hn by discriminate.
  assert (Forall unprefixed slash_entries) as Hall.
  { unfold two_cameras, slash_entries.
    repeat (apply List.Forall_cons;
              [vm_compute; repeat split; try reflexivity;
               intros H; repeat destruct H as [H | H];
               first [discriminate H | contradiction] |]).
    apply List.Forall_nil. }
  split; [exact Hn|]. split; [exact Hall|].
  exact (unprefixed_entries_are_numbered slash_entries Hn Hall).
Defined.

Lemma parse_raises_iff_witness :
  Exists raises (split comma (str "gate1:rtsp://h/s, camera2")) ∧
  parse_camera_urls (str "gate1:rtsp://h/s, camera2") = None.
Proof.
  assert (Exists raises (split comma (str "gate1:rtsp://h/s, camera2")))
    as Hbad.
  { apply List.Exists_cons_tl, List.Exists_cons_hd.
    vm_compute. repeat split; first [discriminate | reflexivity]. }
  split; [exact Hbad|].
  exact (proj2 (proj1 (parse_raises_iff _)) Hbad).
Defined.

(** An entry that is a bare name raises; blank entries are skipped. *)
Example bare_name_raises :
  parse_camera_urls (str "gate1:rtsp://h/s, camera2") = None ∧
  parse_camera_urls (str " , gate1:rtsp://h/s ,,") 
  = Some [(str "gate1", str "rtsp://h/s")] ∧
  parse_camera_urls (str "") = Some [].
Proof. vm_compute. repeat split. Qed.

End UrlsTheory.

(** ** The video of a visit *)

Module RecordingTheory.
Import Config.
Import Counter.
Import Tactics.
Import CounterTheory.
Import VisitTheory.

Section Recorded.
Context (cfg : Config.t) `{BT : ByteTrack}.

Lemma os_path_join_cases a b :
  Py.os_path_join a b = b ∨ Py.os_path_join a b = a +:+ b ∨
  Py.os_path_join a b = a +:+ "/" +:+ b.
Proof.
  unfold Py.os_path_join. destruct a as [|d a].
  { destruct b as [|c b]; [by left|].
    destruct c as [[] [] [] [] [] [] [] []]; by left. }
  generalize (String.get (String.length (String d a) - 1) (String d a)).
  intros o.
  assert (∃ r, (r = String d a +:+ b ∨ r = String d a +:+ "/" +:+ b) ∧
     match o with Some "/"%char => String d a +:+ b | _ => String d a +:+ "/" +:+ b end = r) as (r & Hr & Ho).
  { destruct o as [e|]; [|eauto].
    destruct e as [[] [] [] [] [] [] [] []]; eauto. }
  rewrite Ho.
  destruct b as [|c b]; [by right|].
  destruct c as [[] [] [] [] [] [] [] []]; first [by left | right; exact Hr].
Qed.

Lemma video_path_of_nonempty g io : video_path_of cfg g io ≠ "".
Proof.
  unfold video_path_of.
  assert (∀ a b : string, b ≠ "" → a +:+ b ≠ "") as Happ.
  { intros a b Hb. destruct a; simpl; [done | discriminate]. }
  assert (g +:+ "_" +:+ strftime_now io +:+ ".mp4" ≠ "") as Hb.
  { apply Happ. discriminate. }
  destruct (os_path_join_cases (VIDEO_DIR cfg)
              (g +:+ "_" +:+ strftime_now io +:+ ".mp4"))
    as [-> | [-> | ->]]; [done | by apply Happ |].
  apply Happ. discriminate.
Qed.

(** What a tick that leaves a visit attached does to its video fields
    and to the sink. *)
Lemma live_tick_video self io s' :
  session (state_after cfg self io) = Some s' →
  match session self with
  | Some s =>
      video_writer s' = video_writer s ∧ video_path s' = video_path s ∧
      video_size_bytes s' = video_size_bytes s ∧
      sink_calls cfg self io
      = match frame io, video_writer s with
        | Some f, Some w => if isOpened w then [SinkWrite f] else []
        | _, _ => []
        end
  | None =>
      match frame io with
      | Some f =>
          video_writer s' = Some {| isOpened := sink_opens io |} ∧
          video_path s' = video_path_of cfg (self_gate_id self) io ∧
          video_size_bytes s' = 0 ∧
          sink_calls cfg self io
          = SinkOpen (video_path_of cfg (self_gate_id self) io) (10 # 1)
              (frame_width f) (frame_height f)
            :: (if sink_opens io then [SinkWrite f] else [])
      | None =>
          video_writer s' = None ∧ video_path s' = "" ∧
          video_size_bytes s' = 0 ∧ sink_calls cfg self io = []
      end
  end.
Proof.
  intros Hafter.
  destruct (tick_cases cfg self io)
    as [Hp | [[Hv Hn] | [(s0 & Hs0 & Ha) | (s0 & Hv & Hs0 & Hle)]]].
  - unfold state_after, sink_calls, process_frame in *.
    unfold vehicle_present in Hp. unfold vehicle_phase in *.
    destruct (vehicles_of (detections io)) as [|v vs]; [done|].
    destruct (session self) as [s|]; [| destruct (frame io) as [f|] eqn:Hf];
      cbn [fst snd start_recording] in *;
      match type of Hafter with
      | session (cluster_phase (track_phase ?self1 io) io) = _ =>
          destruct (later_phases_keep self1 io _ eq_refl)
            as (s2 & Hs2 & _ & _ & _ & _ & _ & Hw & Hpa & Hsz & _)
      end;
      rewrite Hs2 in Hafter; simplify_eq; simpl in *;
      rewrite ?Hf; unfold record_phase, write_frame; simpl; rewrite ?Hf;
      repeat split; done.
  - unfold state_after in Hafter. rewrite (step_idle cfg self io Hv Hn) in Hafter.
    simpl in Hafter. congruence.
  - unfold state_after in Hafter.
    rewrite (process_frame_end cfg self io s0 Hs0 Ha) in Hafter. done.
  - rewrite Hs0. unfold state_after, sink_calls in *.
    rewrite (process_frame_fall_through cfg _ _ _ _
               (vehicle_phase_absent_wait cfg self io s0 Hv Hs0 Hle)) in *.
    cbn [fst snd] in *.
    destruct (later_phases_keep self io s0 Hs0)
      as (s2 & Hs2 & _ & _ & _ & _ & _ & Hw & Hpa & Hsz & _).
    rewrite Hs2 in Hafter. simplify_eq.
    unfold record_phase, write_frame. rewrite Hs0.
    repeat split; done.
Qed.

Lemma frames_of_cons io ios :
  frames_of (io :: ios)
  = match frame io with Some f => f :: frames_of ios | None => frames_of ios end.
Proof. unfold frames_of. simpl. by destruct (frame io). Qed.

Lemma run_sink_calls_app ios1 : ∀ self ios2,
  run_sink_calls cfg self (ios1 ++ ios2)
  = run_sink_calls cfg self ios1
    ++ run_sink_calls cfg (run cfg self ios1).1 ios2.
Proof.
  induction ios1 as [|io rest IH]; intros self ios2; [done|].
  rewrite <- app_comm_cons. cbn [run_sink_calls].
  rewrite IH, run_cons. cbn [fst]. by rewrite app_assoc.
Qed.

(** The video of a live visit over ticks that keep it live. *)
Lemma live_visit_video ios : ∀ self s,
  session self = Some s →
  Forall (λ o, o = None) (run cfg self ios).2 →
  ∃ s', session (run cfg self ios).1 = Some s' ∧
        video_writer s' = video_writer s ∧
        video_path s' = video_path s ∧
        video_size_bytes s' = video_size_bytes s ∧
        run_sink_calls cfg self ios
        = match video_writer s with
          | Some w => if isOpened w then SinkWrite <$> frames_of ios else []
          | None => []
          end.
Proof.
  induction ios as [|io rest IH]; intros self s Hs Hnone.
  - exists s. cbn [run fst run_sink_calls]. repeat split; try done.
    by destruct (video_writer s) as [[[|]]|].
  - rewrite run_cons in Hnone |- *. cbn [fst snd] in Hnone |- *.
    inversion Hnone as [|? ? Hret Hrest]; subst.
    destruct (stays_live cfg self io s Hs Hret) as (s1 & Hs1).
    pose proof (live_tick_video self io s1 Hs1) as Hv. rewrite Hs in Hv.
    destruct Hv as (Hw & Hpa & Hsz & Hcalls).
    destruct (IH _ s1 Hs1 Hrest) as (s' & Hs' & Hw' & Hpa' & Hsz' & Hc').
    exists s'. split; [done|].
    split; [congruence|]. split; [congruence|]. split; [congruence|].
    cbn [run_sink_calls]. rewrite Hcalls, Hc', Hw, frames_of_cons.
    destruct (frame io), (video_writer s) as [[[|]]|]; done.
Qed.

(** The same from the tick that creates the visit. *)
Lemma new_visit_video self io0 ios :
  session self = None → vehicle_present io0 →
  Forall (λ o, o = None) (run cfg self (io0 :: ios)).2 →
  ∃ s', session (run cfg self (io0 :: ios)).1 = Some s' ∧
        video_size_bytes s' = 0 ∧
        match frame io0 with
        | Some f =>
            video_writer s' = Some {| isOpened := sink_opens io0 |} ∧
            video_path s' = video_path_of cfg (self_gate_id self) io0 ∧
            run_sink_calls cfg self (io0 :: ios)
            = SinkOpen (video_path_of cfg (self_gate_id self) io0) (10 # 1)
                (frame_width f) (frame_height f)
              :: (if sink_opens io0
                  then SinkWrite <$> frames_of (io0 :: ios) else [])
        | None =>
            video_writer s' = None ∧ video_path s' = "" ∧
            run_sink_calls cfg self (io0 :: ios) = []
        end.
Proof.
  intros Hs Hp Hnone. rewrite run_cons in Hnone |- *.
  cbn [fst snd] in Hnone |- *.
  inversion Hnone as [|? ? Hret Hrest]; subst.
  destruct (step_present cfg self io0 Hp) as [_ (s1 & Hs1 & _)].
  pose proof (live_tick_video self io0 s1 Hs1) as Hv. rewrite Hs in Hv.
  destruct (live_visit_video ios _ s1 Hs1 Hrest)
    as (s' & Hs' & Hw' & Hpa' & Hsz' & Hc').
  exists s'. split; [done|].
  cbn [run_sink_calls]. rewrite Hc', frames_of_cons.
  destruct (frame io0) as [f|].
  - destruct Hv as (Hw & Hpa & Hsz & Hcalls).
    rewrite Hcalls, Hw. cbn [isOpened].
    split; [congruence|]. split; [congruence|]. split; [congruence|].
    by destruct (sink_opens io0).
  - destruct Hv as (Hw & Hpa & Hsz & Hcalls).
    rewrite Hcalls, Hw. split; [congruence|]. split; [congruence|].
    split; [congruence|]. done.
Qed.

(** X15. The video fields of the record of a completed visit: the path is
    the one built from the video directory, the gate and the time stamp
    of the tick that created the visit if that tick supplied a frame,
    and empty otherwise; the size is the one the file system reports for
    the file at the finalizing tick, and zero if no video was started or
    the file does not exist. *)
Theorem record_video_fields self io0 ios io_end :
  session self = None → vehicle_present io0 →
  Forall (λ o, o = None) (run cfg self (io0 :: ios)).2 →
  absent_too_long cfg (last_seen (time_now io0) ios) io_end →
  ∃ record,
    returned cfg (run cfg self (io0 :: ios)).1 io_end = Some record ∧
    d_video_path record
      = match frame io0 with
        | Some _ => video_path_of cfg (self_gate_id self) io0
        | None => ""
        end ∧
    d_video_size_bytes record
      = match frame io0, fs_getsize io_end with
        | Some _, Some sz => sz
        | _, _ => 0
        end.
Proof.
  intros Hs Hp Hnone Hend.
  destruct (new_visit_statistics cfg self io0 ios Hs Hp Hnone)
    as (s' & Hs' & _ & _ & Hl & _).
  destruct (new_visit_video self io0 ios Hs Hp Hnone)
    as (s2 & Hs2 & Hsz & Hv).
  assert (s2 = s') as -> by congruence.
  rewrite <- Hl in Hend.
  exists (to_dict (ended_session s' io_end) (time_duration io_end)).
  unfold returned.
  rewrite (process_frame_end cfg _ io_end s' Hs' Hend). cbn [fst snd].
  split; [reflexivity|].
  cbn [to_dict d_video_path d_video_size_bytes].
  unfold ended_session, stop_recording. cbn [set_ended video_writer video_path video_size_bytes].
  destruct (frame io0) as [f|].
  - destruct Hv as (Hw & Hpa & _).
    pose proof (video_path_of_nonempty (self_gate_id self) io0) as Hne.
    rewrite Hw. cbn. rewrite Hpa.
    destruct (video_path_of cfg (self_gate_id self) io0) eqn:E; [done|].
    destruct (fs_getsize io_end); cbn; [done|]. by rewrite Hsz.
  - destruct Hv as (Hw & Hpa & _). rewrite Hw. cbn. rewrite Hpa. cbn.
    by rewrite Hsz, Hpa.
Qed.

(** X16. The calls on the video sink over a whole visit. If the tick that
    creates the visit supplies a frame, the sink is opened once, at ten
    frames per second and with the size of that frame; if it opens, the
    frames supplied with the ticks of the visit are written to it, each
    once and in order; the finalizing tick writes nothing and releases
    the sink. If the creating tick supplies no frame, the sink is never
    called, whatever frames come later. *)
Theorem visit_sink_calls self io0 ios io_end :
  session self = None → vehicle_present io0 →
  Forall (λ o, o = None) (run cfg self (io0 :: ios)).2 →
  absent_too_long cfg (last_seen (time_now io0) ios) io_end →
  run_sink_calls cfg self (io0 :: ios ++ [io_end])
  = match frame io0 with
    | Some f =>
        SinkOpen (video_path_of cfg (self_gate_id self) io0) (10 # 1)
          (frame_width f) (frame_height f)
        :: (if sink_opens io0
            then SinkWrite <$> frames_of (io0 :: ios) else [])
        ++ [SinkRelease]
    | None => []
    end.
Proof.
  intros Hs Hp Hnone Hend.
  destruct (new_visit_statistics cfg self io0 ios Hs Hp Hnone)
    as (s' & Hs' & _ & _ & Hl & _).
  destruct (new_visit_video self io0 ios Hs Hp Hnone)
    as (s2 & Hs2 & Hsz & Hv).
  assert (s2 = s') as -> by congruence.
  rewrite <- Hl in Hend.
  rewrite app_comm_cons, run_sink_calls_app.
  assert (run_sink_calls cfg (run cfg self (io0 :: ios)).1 [io_end]
          = match video_writer s' with
            | Some _ => [SinkRelease]
            | None => []
            end) as ->.
  { cbn [run_sink_calls]. unfold sink_calls.
    rewrite (process_frame_end cfg _ io_end s' Hs' Hend). cbn [fst snd].
    by rewrite stop_recording_release, app_nil_r. }
  destruct (frame io0) as [f|]; destruct Hv as (Hw & Hpa & Hcalls);
    rewrite Hcalls, Hw; done.
Qed.

End Recorded.

Import Examples.

Lemma scenario1_ends :
  absent_too_long defaults (last_seen 0 (drop 1 (take 4 scenario1)))
    (tick 33 [bag 7; cluster] (Some image)).
Proof. split; reflexivity. Qed.

Lemma record_video_fields_witness :
  session counter0 = None ∧
  vehicle_present (tick 0 [vehicle (9 # 10); bag 1; bag 2] (Some image)) ∧
  Forall (λ o, o = None) (run defaults counter0 (take 4 scenario1)).2 ∧
  absent_too_long defaults
    (last_seen 0 (drop 1 (take 4 scenario1)))
    (tick 33 [bag 7; cluster] (Some image)) ∧
  ∃ record,
    returned defaults (run defaults counter0 (take 4 scenario1)).1
      (tick 33 [bag 7; cluster] (Some image)) = Some record ∧
    d_video_path record = "/tmp/detection_videos/gate1_20250101_000000.mp4" ∧
    d_video_size_bytes record = 1000.
Proof.
  split; [reflexivity|]. split; [exact scenario1_first_tick|].
  split; [exact scenario1_live|]. split; [exact scenario1_ends|].
  destruct (record_video_fields defaults counter0 _ _ _ eq_refl
              scenario1_first_tick scenario1_live scenario1_ends)
    as (record & Hret & Hpath & Hsize).
  exists record. split; [exact Hret|]. split.
  { rewrite Hpath. vm_compute. reflexivity. }
  rewrite Hsize. reflexivity.
Defined.

Lemma visit_sink_calls_witness :
  session counter0 = None ∧
  vehicle_present (tick 0 [vehicle (9 # 10); bag 1; bag 2] (Some image)) ∧
  Forall (λ o, o = None) (run defaults counter0 (take 4 scenario1)).2 ∧
  absent_too_long defaults
    (last_seen 0 (drop 1 (take 4 scenario1)))
    (tick 33 [bag 7; cluster] (Some image)) ∧
  run_sink_calls defaults counter0 (take 5 scenario1)
  = [SinkOpen "/tmp/detection_videos/gate1_20250101_000000.mp4" (10 # 1) 640 480;
     SinkWrite image; SinkWrite image; SinkWrite image; SinkWrite image;
     SinkRelease].
Proof.
  split; [reflexivity|]. split; [exact scenario1_first_tick|].
  split; [exact scenario1_live|]. split; [exact scenario1_ends|].
  etransitivity;
    [exact (visit_sink_calls defaults counter0 _ _ _ eq_refl
              scenario1_first_tick scenario1_live scenario1_ends)|].
  vm_compute. reflexivity.
Defined.

End RecordingTheory.

(** ** The service loop *)

Module ServiceTheory.
Import Config.
Import Counter.
Import Main.
Import Tactics.
Import CounterTheory.
Import MainTheory.
Import VisitTheory.

Section Served.
Context (cfg : Config.t) `{BT : ByteTrack}.

Lemma reports_cons o outs post :
  reports cfg (o :: outs) post
  = match o with
    | Some session => report_session cfg session post
    | None => []
    end ++ reports cfg outs post.
Proof. reflexivity. Qed.

Lemma reports_app outs1 outs2 post :
  reports cfg (outs1 ++ outs2) post
  = reports cfg outs1 post ++ reports cfg outs2 post.
Proof. unfold reports. by rewrite fmap_app, join_app. Qed.

Lemma serve_cons counter io rest post :
  serve cfg counter (io :: rest) post
  = if has_frame io
    then ((serve cfg (state_after cfg counter io) rest post).1,
          reports cfg [returned cfg counter io] post
          ++ (serve cfg (state_after cfg counter io) rest post).2)
    else serve cfg counter rest post.
Proof.
  cbn [serve]. unfold serve_stream, has_frame, state_after, returned.
  rewrite reports_cons. unfold reports at 1. cbn [fmap list_fmap mjoin list_join].
  rewrite app_nil_r.
  destruct (frame io).
  - destruct (process_frame cfg counter io) as [[c' out] calls]. cbn [fst snd].
    by destruct (serve cfg c' rest post) as [c'' effs].
  - by destruct (serve cfg counter rest post).
Qed.

(** The loop is the counter run over the passes that got a frame,
    with every returned record handed to [report_session]. *)
Lemma serve_run passes post : ∀ counter,
  serve cfg counter passes post
  = ((run cfg counter (List.filter has_frame passes)).1,
     reports cfg (run cfg counter (List.filter has_frame passes)).2 post).
Proof.
  induction passes as [|io rest IH]; intros counter; [done|].
  rewrite serve_cons. cbn [List.filter]. destruct (has_frame io); [|apply IH].
  rewrite IH, run_cons. cbn [fst snd].
  by rewrite <- reports_app.
Qed.

Lemma reports_none outs post :
  Forall (λ o, o = None) outs → reports cfg outs post = [].
Proof.
  induction 1 as [|o outs -> _ IH]; [done|].
  by rewrite reports_cons, IH.
Qed.

Lemma posted_app tr1 tr2 : posted (tr1 ++ tr2) = posted tr1 ++ posted tr2.
Proof. unfold posted. by rewrite omap_app. Qed.

Lemma posted_report session post :
  posted (report_session cfg session post)
  = if decide (MIN_BAG_COUNT_TO_REPORT cfg ≤ d_estimated_total session)
    then [session] else [].
Proof.
  destruct (decide _) as [Hge | Hlt].
  - destruct (report_session_posts cfg session post Hge) as (req & Hj & _ & ->).
    cbn. rewrite Hj.
    destruct (post req) as [resp | e]; [destruct (bool_decide _)|]; done.
  - rewrite report_session_skips by lia. done.
Qed.

(** X17. The service loop and the noise filter, end to end. Over passes
    of the loop of which those that got a frame make up a whole visit
    (the pass that creates it, passes that keep it live, the pass that
    finalizes it), passes without frame are skipped, nothing is done to
    the endpoint before the finalizing pass, and what is done then is
    [report_session] of the record: the record is sent, once, exactly
    when the number of distinct identities the tracker returned plus the
    largest per-tick cluster count reaches [MIN_BAG_COUNT_TO_REPORT]. *)
Theorem service_reports_visit counter passes io0 ios io_end post :
  List.filter has_frame passes = io0 :: ios ++ [io_end] →
  session counter = None → vehicle_present io0 →
  Forall (λ o, o = None) (run cfg counter (io0 :: ios)).2 →
  absent_too_long cfg (last_seen (time_now io0) ios) io_end →
  ∃ record,
    (serve cfg counter passes post).2 = report_session cfg record post ∧
    session (serve cfg counter passes post).1 = None ∧
    d_estimated_total record
      = Z.of_nat (size (list_to_set (C := gset Z)
                          (tracked_during cfg counter (io0 :: ios))))
        + max_count (cluster_count <$> io0 :: ios) ∧
    posted (serve cfg counter passes post).2
      = if decide (MIN_BAG_COUNT_TO_REPORT cfg ≤ d_estimated_total record)
        then [record] else [].
Proof.
  intros Hseen Hs Hp Hnone Hend.
  destruct (new_visit_statistics cfg counter io0 ios Hs Hp Hnone)
    as (s' & Hs' & _ & _ & Hl & _).
  destruct (new_visit_accumulates cfg counter io0 ios Hs Hp Hnone)
    as (s2 & Hs2 & Hu & Hcl).
  assert (s2 = s') as -> by congruence.
  rewrite <- Hl in Hend.
  destruct (ended_session_fields s' io_end) as (_ & Hu' & Hc' & _).
  exists (to_dict (ended_session s' io_end) (time_duration io_end)).
  rewrite serve_run, Hseen, app_comm_cons, run_app. cbn [fst snd].
  rewrite reports_app, (reports_none _ _ Hnone), app_nil_l.
  set (counter1 := (run cfg counter (io0 :: ios)).1) in *.
  rewrite run_cons. cbn [run fst snd]. unfold returned, state_after.
  rewrite (process_frame_end cfg counter1 io_end s' Hs' Hend). cbn [fst snd].
  rewrite reports_cons. change (reports cfg [] post) with (@nil Effect).
  rewrite app_nil_r.
  split; [reflexivity|]. split; [reflexivity|].
  split; [| apply posted_report].
  cbn [to_dict d_estimated_total]. unfold estimated_total, bag_count.
  by rewrite Hu', Hc', Hu, Hcl.
Qed.

(** X18. Whatever passes the loop makes and from whatever counter, every
    record sent to the endpoint is one that [process_frame] returned on
    a pass that got a frame, its estimated total reaches
    [MIN_BAG_COUNT_TO_REPORT], and the records are sent in the order of
    their completion, each once: the records sent are the returned ones
    that reach the threshold. *)
Theorem posted_records_are_completed_visits passes post : ∀ counter,
  posted (serve cfg counter passes post).2
  = List.filter
      (λ record, bool_decide
                   (MIN_BAG_COUNT_TO_REPORT cfg ≤ d_estimated_total record))
      (omap id (run cfg counter (List.filter has_frame passes)).2).
Proof.
  intros counter. rewrite serve_run. cbn [snd].
  induction (run cfg counter (List.filter has_frame passes)).2
    as [|o outs IH]; [done|].
  rewrite reports_cons, posted_app, IH.
  destruct o as [record|]; [|done].
  rewrite posted_report. cbn [omap list_omap id List.filter].
  unfold omap.
  destruct (decide _) as [Hge | Hlt].
  - by rewrite bool_decide_eq_true_2.
  - by rewrite bool_decide_eq_false_2.
Qed.

End Served.

Import Examples.

Lemma service_reports_visit_witness :
  List.filter has_frame passes1
  = tick 0 [vehicle (9 # 10); bag 1; bag 2] (Some image)
    :: drop 1 (take 4 scenario1) ++ [tick 33 [bag 7; cluster] (Some image)] ∧
  session counter0 = None ∧
  vehicle_present (tick 0 [vehicle (9 # 10); bag 1; bag 2] (Some image)) ∧
  Forall (λ o, o = None) (run defaults counter0 (take 4 scenario1)).2 ∧
  absent_too_long defaults
    (last_seen 0 (drop 1 (take 4 scenario1)))
    (tick 33 [bag 7; cluster] (Some image)) ∧
  ∃ record,
    (serve defaults counter0 passes1 (answers 200)).2
      = report_session defaults record (answers 200) ∧
    d_estimated_total record = 4 ∧
    posted (serve defaults counter0 passes1 (answers 200)).2 = [record].
Proof.
  assert (absent_too_long defaults
            (last_seen 0 (drop 1 (take 4 scenario1)))
            (tick 33 [bag 7; cluster] (Some image))) as Hend.
  { split; reflexivity. }
  split; [reflexivity|]. split; [reflexivity|].
  split; [exact scenario1_first_tick|].
  split; [exact scenario1_live|]. split; [exact Hend|].
  destruct (service_reports_visit defaults counter0 passes1
              (tick 0 [vehicle (9 # 10); bag 1; bag 2] (Some image))
              (drop 1 (take 4 scenario1))
              (tick 33 [bag 7; cluster] (Some image))
              (answers 200) eq_refl eq_refl
              scenario1_first_tick scenario1_live Hend)
    as (record & Heff & _ & Hest & Hposted).
  assert (d_estimated_total record = 4) as H4.
  { rewrite Hest. vm_compute. reflexivity. }
  exists record. split; [exact Heff|]. split; [exact H4|].
  rewrite Hposted, H4. reflexivity.
Defined.
End ServiceTheory.

(** ** The detector *)

Module DetectorTheory.
Import Counter.
Import Detector.
Import PyTheory.

(** ** Rounding to decimals *)




Section Detected.
Context (names : gmap Z string).

Lemma truediv_some x d : d ≠ 0 → truediv x d = Some (x / inject_Z d)%Q.
Proof. intros Hd. unfold truediv. by destruct (Z.eqb_spec d 0). Qed.

Lemma detect_box_some w h box :
  w ≠ 0 → h ≠ 0 →
  detect_box names w h box
  = Some {|
      detection := {|
        class_id := int (cls box);
        confidence := Py.round (conf box) 3;
        bbox := (λ v, Py.round v 1)
                <$> [(xyxy box).1.1.1; (xyxy box).1.1.2;
                     (xyxy box).1.2; (xyxy box).2]
      |};
      class_name := default ("class_" +:+ format_int (int (cls box)))
                      (names !! int (cls box));
      bbox_norm :=
        (λ v, Py.round v 4)
        <$> [(((xyxy box).1.1.1 + (xyxy box).1.2) / 2 / inject_Z w)%Q;
             (((xyxy box).1.1.2 + (xyxy box).2) / 2 / inject_Z h)%Q;
             (((xyxy box).1.2 - (xyxy box).1.1.1) / inject_Z w)%Q;
             (((xyxy box).2 - (xyxy box).1.1.2) / inject_Z h)%Q]
    |}.
Proof.
  intros Hw Hh. unfold detect_box.
  destruct (xyxy box) as [[[x1 y1] x2] y2]. cbn [fst snd].
  by rewrite !truediv_some.
Qed.

Lemma detect_box_none w h box :
  detect_box names w h box = None ↔ w = 0 ∨ h = 0.
Proof.
  split.
  - intros Hnone. destruct (decide (w = 0)); [by left|].
    destruct (decide (h = 0)); [by right|].
    by rewrite detect_box_some in Hnone.
  - unfold detect_box. destruct (xyxy box) as [[[x1 y1] x2] y2].
    unfold truediv. intros [-> | ->]; [done|].
    by destruct (w =? 0).
Qed.

Lemma detect_boxes results frame :
  detect names results frame
  = mapM (detect_box names (frame_width frame) (frame_height frame))
      (boxes_of results).
Proof.
  unfold detect, boxes_of. destruct results as [|result rest]; [done|].
  by destruct (boxes result).
Qed.

(** X19. [detect] raises exactly when the model returns at least one box
    for a frame whose width or height is zero; in every other case it
    returns one dict per box of the first result (none when the model
    returns no result or no boxes). *)
Theorem detect_raises_iff results frame :
  (detect names results frame = None ↔
     boxes_of results ≠ [] ∧
     (frame_width frame = 0 ∨ frame_height frame = 0)) ∧
  (∀ dets, detect names results frame = Some dets →
     length dets = length (boxes_of results)).
Proof.
  rewrite detect_boxes. split.
  - rewrite mapM_None. split.
    + intros Hex. apply Exists_exists in Hex as (box & Hin & Hnone).
      apply detect_box_none in Hnone. split; [|done].
      intros Hnil. rewrite Hnil in Hin. by apply elem_of_nil in Hin.
    + intros [Hne Hz]. destruct (boxes_of results) as [|box bs]; [done|].
      apply Exists_cons_hd. by apply detect_box_none.
  - intros dets Hdets. symmetry. by eapply length_mapM.
Qed.



End Detected.

Import Examples.

Lemma detect_raises_iff_witness :
  detect names0 results0 no_image = None ∧
  ∀ dets, detect names0 results0 image = Some dets → length dets = 1%nat.
Proof.
  destruct (detect_raises_iff names0 results0 no_image) as [Hraise _].
  split; [apply Hraise; split; [done | by left]|].
  exact (proj2 (detect_raises_iff names0 results0 image)).
Defined.



End DetectorTheory.
